(** * go-requests: a shallow embedding of the request builder, the dispatch
    pipeline, the response wrapper and the session, with the properties of
    its specification stated and settled over that embedding.

    Sources embedded: errors.go, options.go, request.go, httpclient.go,
    and the sources of the response wrapper and of the session.

    Conventions.
    - A Go pointer or map that may be nil is an [option]; a Go [error] result
      is an [option error] (None is nil).
    - [http.Header] and [url.Values] are finite maps from strings to lists of
      strings ([gmap]).
    - A Go map that an option receives as an argument and walks with [range]
      is the list of its entries in the order in which the runtime visits
      them; Go leaves that order unspecified.
    - The Go standard library called by the package (net/url, net/http,
      encoding/json, io) is an interface, [GoStd]; every general theorem
      holds for all its implementations. [Demo] is one small implementation
      used to run the code on concrete inputs.
    - net/url's [QueryEscape], [QueryUnescape] and [ParseQuery] are also
      given as definitions; a theorem that depends on what they compute
      assumes that the interface agrees with them. *)

From Stdlib Require Import ZArith Lia List Sorted.
From Stdlib Require Import Strings.String Strings.Ascii Strings.Byte.
From Stdlib Require OrderedTypeEx.
From stdpp Require Import base option list gmap strings sorting fin_maps.

Local Open Scope string_scope.
Local Open Scope Z_scope.
Local Open Scope list_scope.

(** ** Errors (errors.go) *)

(** The seven package-level error values. *)
Inductive sentinel : Type :=
| ErrRequest
| ErrNetwork
| ErrTimeout
| ErrStatus
| ErrResponse
| ErrResponseNil
| ErrNoContent.

#[global] Instance sentinel_eq_dec : EqDecision sentinel.
Proof. solve_decision. Defined.

(** An error value made outside the package (net/url, encoding/json, io,
    net/http), described by what the package can observe of it:
    its text, whether [errors.Is(e, context.DeadlineExceeded)] holds, and
    whether it is a [net.Error] whose [Timeout()] is true.  Such an error
    does not wrap any of the package's own error values. *)
Record exterr : Type := mkExterr {
  ext_msg : string;
  ext_deadline : bool;
  ext_net_timeout : bool
}.

#[global] Instance exterr_eq_dec : EqDecision exterr.
Proof. solve_decision. Defined.

(** [http.ErrUseLastResponse]. *)
Definition http_ErrUseLastResponse : exterr :=
  mkExterr "net/http: use last response" false false.

Abbreviation bytes := (list Byte.byte).
Abbreviation Header := (gmap string (list string)).
Abbreviation Values := (gmap string (list string)).

(** [*url.URL]: the fields the package reads or writes. *)
Record URL : Type := mkURL {
  Scheme : string;
  Host : string;
  Path : string;
  RawQuery : string;
  Fragment : string
}.

#[global] Instance URL_eq_dec : EqDecision URL.
Proof. solve_decision. Defined.

Definition set_RawQuery (u : URL) (q : string) : URL :=
  mkURL (Scheme u) (Host u) (Path u) q (Fragment u).

(** [*http.Cookie]: [AddCookie] reads the name and the value. *)
Record Cookie : Type := mkCookie {
  Name : string;
  Value : string
}.

(** The types the standard library leaves open. *)
Class GoTypes : Type := {
  (** the dynamic values handed to [WithJSON] and [Response.JSON] *)
  any : Type;
  (** the state of an [io.Reader] / [io.ReadCloser] implementation *)
  Stream : Type
}.

(** Operations performed on a body stream. *)
Inductive StreamOp : Type :=
| OpReadAll
| OpClose.

Section DataModel.
Context `{GT : GoTypes}.

(** An [io.ReadCloser] together with the record of the operations performed
    on it (the role of [countingReadCloser] in the package's tests). *)
Record ReadCloser : Type := mkReadCloser {
  rc_stream : Stream;
  rc_ops : list StreamOp
}.

(** A request body, [io.Reader]. *)
Inductive Reader : Type :=
| bytes_NewReader (b : bytes)
| strings_NewReader (s : string)
| stream_Reader (s : Stream).

(** [*http.Request] as built by [do]. *)
Record HttpRequest : Type := mkHttpRequest {
  hreq_Method : string;
  hreq_URL : string;
  hreq_Header : Header;
  hreq_Body : option Reader
}.

(** [*http.Response]. *)
Record HttpResponse : Type := mkHttpResponse {
  hresp_StatusCode : Z;
  hresp_Header : Header;
  hresp_Body : option ReadCloser
}.

(** [*http.Transport] as [buildClient] configures it: whether it is a clone
    of the default transport, and its proxy. *)
Record Transport : Type := mkTransport {
  tr_cloned_default : bool;
  tr_Proxy : option URL
}.

(** [*http.Client]: zero [Timeout] means no timeout, [None] transport means
    [http.DefaultTransport], [None] policy means the default policy. *)
Record Client : Type := mkClient {
  Timeout : Z;
  cl_Transport : option Transport;
  CheckRedirect : option (HttpRequest -> list HttpRequest -> option exterr)
}.

(** [error] values the package returns, and the response wrapper
    (response.go); they are mutually dependent through [StatusError].
    - [Sentinel s] is the package variable [s];
    - [Errorf w v] is [fmt.Errorf("%w: %v", w, v)];
    - [StatusError code r] is [&StatusError{StatusCode: code, Response: r}];
    - [External e] is an error made outside the package.
    [once] is the done flag of the wrapper's [sync.Once]. *)
Inductive error : Type :=
| Sentinel (s : sentinel)
| Errorf (w : sentinel) (v : error)
| StatusError (code : Z) (r : option Response)
| External (e : exterr)
with Response : Type :=
| mkResponse (Raw : option HttpResponse) (StatusCode : Z) (Headers : Header)
    (once : bool) (body : bytes) (bodyErr : option error).

Definition Raw (r : Response) : option HttpResponse :=
  match r with mkResponse x _ _ _ _ _ => x end.
Definition StatusCode (r : Response) : Z :=
  match r with mkResponse _ x _ _ _ _ => x end.
Definition Headers (r : Response) : Header :=
  match r with mkResponse _ _ x _ _ _ => x end.
Definition once (r : Response) : bool :=
  match r with mkResponse _ _ _ x _ _ => x end.
Definition resp_body (r : Response) : bytes :=
  match r with mkResponse _ _ _ _ x _ => x end.
Definition bodyErr (r : Response) : option error :=
  match r with mkResponse _ _ _ _ _ x => x end.

(** [StatusError.Unwrap] and the unwrapping of [fmt.Errorf]'s [%w]. *)
Definition Unwrap (e : error) : option error :=
  match e with
  | Sentinel _ => None
  | Errorf w _ => Some (Sentinel w)
  | StatusError _ _ => Some (Sentinel ErrStatus)
  | External _ => None
  end.

(** [errors.Is(e, target)] for a package error value as target: [e] is the
    target, or its chain of [Unwrap]s reaches it.  The chains of this
    package have length at most two. *)
Definition errors_Is (e : error) (target : sentinel) : bool :=
  match e with
  | Sentinel s => bool_decide (s = target)
  | _ =>
    match Unwrap e with
    | Some (Sentinel s) => bool_decide (s = target)
    | _ => false
    end
  end.

(** ** Header and Values operations (net/http, net/url) *)

Section HeaderOps.
Variable canon : string -> string.

(** [Header.Set]: the key is canonicalised, the value list is replaced. *)
Definition Header_Set (key value : string) (h : Header) : Header :=
  <[canon key := [value]]> h.

(** [Header.Values]. *)
Definition Header_Values (key : string) (h : Header) : list string :=
  default [] (h !! canon key).

(** [Header.Get]: the first value, or the empty string. *)
Definition Header_Get (key : string) (h : Header) : string :=
  match h !! canon key with
  | Some (v :: _) => v
  | _ => ""
  end.

End HeaderOps.

(** [Values.Add]: append to the key's values. *)
Definition Values_Add (key value : string) (q : Values) : Values :=
  <[key := default [] (q !! key) ++ [value]]> q.

(** [Values.Set]. *)
Definition Values_Set (key value : string) (q : Values) : Values :=
  <[key := [value]]> q.

(** Byte-wise lexicographic order, the order of Go's string comparison. *)
Definition string_le (s1 s2 : string) : Prop := String.leb s1 s2 = true.

#[global] Instance string_le_dec : RelDecision string_le.
Proof. intros s1 s2. unfold string_le. apply _. Defined.

(** The keys of [v] as [Values.Encode] visits them, after [slices.Sort]. *)
Definition sorted_keys (v : Values) : list string :=
  merge_sort string_le (map fst (map_to_list v)).

(** The key/value pairs in the order [Values.Encode] writes them. *)
Definition Values_pairs (v : Values) : list (string * string) :=
  flat_map (fun k => map (fun x => (k, x)) (default [] (v !! k)))
    (sorted_keys v).

Section EncodeOps.
Variable escape : string -> string.

(** [Values.Encode]: [k=v] joined by [&], keys sorted, both sides escaped. *)
Definition Values_Encode (v : Values) : string :=
  String.concat "&"
    (map (fun kv => escape (fst kv) +:+ "=" +:+ escape (snd kv))
       (Values_pairs v)).

End EncodeOps.

End DataModel.

(** ** Query strings (net/url)

    [url.QueryEscape], [url.QueryUnescape] and [url.ParseQuery] as net/url
    defines them.  [ParseQuery] cuts the raw query at every [&]; a piece
    that is empty, that contains a semicolon, or whose key or value has a
    percent sign not followed by two hexadecimal digits is dropped (its
    error is the one [URL.Query] discards); the other pieces give, in
    order, a key and a value, both unescaped. *)

Definition in_range (lo hi : nat) (c : ascii) : bool :=
  ((lo <=? nat_of_ascii c) && (nat_of_ascii c <=? hi))%nat.

Definition ishex (c : ascii) : bool :=
  in_range 48 57 c || in_range 97 102 c || in_range 65 70 c.

Definition unhex (c : ascii) : nat :=
  if in_range 48 57 c then nat_of_ascii c - 48
  else if in_range 97 102 c then nat_of_ascii c - 97 + 10
  else if in_range 65 70 c then nat_of_ascii c - 65 + 10
  else 0.

Definition upperhex (n : nat) : ascii :=
  if (n <? 10)%nat then ascii_of_nat (48 + n) else ascii_of_nat (65 + (n - 10)).

(** [shouldEscape(c, encodeQueryComponent)]: every byte but the letters,
    the digits and [-], [_], [.], [~]. *)
Definition shouldEscape (c : ascii) : bool :=
  negb (in_range 97 122 c || in_range 65 90 c || in_range 48 57 c
        || existsb (Ascii.eqb c) (list_ascii_of_string "-_.~")).

Fixpoint QueryEscape (s : string) : string :=
  match s with
  | EmptyString => EmptyString
  | String c rest =>
    if Ascii.eqb c " " then String "+" (QueryEscape rest)
    else if shouldEscape c
    then String "%"
           (String (upperhex (nat_of_ascii c / 16))
              (String (upperhex (nat_of_ascii c mod 16)) (QueryEscape rest)))
    else String c (QueryEscape rest)
  end.

(** [QueryUnescape]: [None] is the escape error. *)
Fixpoint QueryUnescape (s : string) : option string :=
  match s with
  | EmptyString => Some EmptyString
  | String c rest =>
    if Ascii.eqb c "%" then
      match rest with
      | String h1 (String h2 rest') =>
        if ishex h1 && ishex h2
        then option_map (String (ascii_of_nat (unhex h1 * 16 + unhex h2)))
               (QueryUnescape rest')
        else None
      | _ => None
      end
    else if Ascii.eqb c "+" then option_map (String " ") (QueryUnescape rest)
    else option_map (String c) (QueryUnescape rest)
  end.

(** [strings.Cut] with a separator of one byte. *)
Fixpoint string_cut (sep : ascii) (s : string) : string * option string :=
  match s with
  | EmptyString => (EmptyString, None)
  | String c rest =>
    if Ascii.eqb c sep then (EmptyString, Some rest)
    else let '(a, b) := string_cut sep rest in (String c a, b)
  end.

(** The pieces of [s] between the occurrences of [sep]. *)
Fixpoint string_pieces (sep : ascii) (s : string) : list string :=
  match s with
  | EmptyString => [EmptyString]
  | String c rest =>
    if Ascii.eqb c sep then EmptyString :: string_pieces sep rest
    else
      match string_pieces sep rest with
      | w :: ws => String c w :: ws
      | [] => [String c EmptyString]
      end
  end.

(** One step of the loop of [parseQuery]: the pair a piece gives, if any. *)
Definition query_pair (piece : string) : option (string * string) :=
  if existsb (Ascii.eqb ";") (list_ascii_of_string piece) then None
  else if decide (piece = "") then None
  else
    let '(k, v) := string_cut "=" piece in
    match QueryUnescape k with
    | None => None
    | Some key =>
      match QueryUnescape (default "" v) with
      | None => None
      | Some value => Some (key, value)
      end
    end.

(** The pairs of a raw query that [ParseQuery] keeps, in their order. *)
Definition query_pairs (raw : string) : list (string * string) :=
  omap query_pair (string_pieces "&" raw).

Definition ParseQuery (raw : string) : Values :=
  fold_left (fun acc kv => Values_Add (fst kv) (snd kv) acc)
    (query_pairs raw) ∅.

(** ** The standard library the package calls *)

Class GoStd `{GT : GoTypes} : Type := {
  (** [json.Marshal] *)
  json_Marshal : any -> bytes + exterr;
  (** [json.Unmarshal]: the error result (the decoded value is not modelled) *)
  json_Unmarshal : bytes -> any -> option exterr;
  (** [url.Parse] *)
  url_Parse : string -> URL + exterr;
  (** [url.ParseQuery] with its error dropped, as [URL.Query] calls it *)
  url_ParseQuery : string -> Values;
  (** [url.QueryEscape] *)
  url_QueryEscape : string -> string;
  (** [URL.String] *)
  URL_String : URL -> string;
  (** [textproto.CanonicalMIMEHeaderKey] *)
  CanonicalMIMEHeaderKey : string -> string;
  (** the sanitised [name=value] text that [AddCookie] writes for a cookie *)
  Cookie_pair : Cookie -> string;
  (** the error, if any, with which [http.NewRequest] rejects a method and a
      URL text *)
  NewRequest_check : string -> string -> option exterr;
  (** whether [http.DefaultTransport] is a [*http.Transport] *)
  DefaultTransport_is_Transport : bool;
  (** [Client.Do]: the whole exchange, redirects included *)
  client_Do : Client -> HttpRequest -> HttpResponse + exterr;
  (** [io.ReadAll] on a stream: the bytes, the error (nil at EOF), the
      stream after the read *)
  io_ReadAll : Stream -> (bytes * option exterr) * Stream;
  (** [Close] on a stream *)
  stream_Close : Stream -> Stream
}.

Section Package.
Context `{GS : GoStd}.

Definition rc_ReadAll (rc : ReadCloser)
  : (bytes * option exterr) * ReadCloser :=
  let '(res, s') := io_ReadAll (rc_stream rc) in
  (res, mkReadCloser s' (rc_ops rc ++ [OpReadAll])).

Definition rc_Close (rc : ReadCloser) : ReadCloser :=
  mkReadCloser (stream_Close (rc_stream rc)) (rc_ops rc ++ [OpClose]).

(** ** The request builder (request.go) *)

Record Request : Type := mkRequest {
  method : string;
  url : string;
  headers : option Header;
  query : option Values;
  body : option Reader;
  timeout : Z;
  cookies : list Cookie;
  proxy : option URL;
  redirectMax : option Z;
  decompressGzip : bool;
  err : option error
}.

Definition set_headers (r : Request) (h : option Header) : Request :=
  mkRequest (method r) (url r) h (query r) (body r) (timeout r) (cookies r)
    (proxy r) (redirectMax r) (decompressGzip r) (err r).
Definition set_query (r : Request) (q : option Values) : Request :=
  mkRequest (method r) (url r) (headers r) q (body r) (timeout r) (cookies r)
    (proxy r) (redirectMax r) (decompressGzip r) (err r).
Definition set_body (r : Request) (b : option Reader) : Request :=
  mkRequest (method r) (url r) (headers r) (query r) b (timeout r) (cookies r)
    (proxy r) (redirectMax r) (decompressGzip r) (err r).
Definition set_timeout (r : Request) (d : Z) : Request :=
  mkRequest (method r) (url r) (headers r) (query r) (body r) d (cookies r)
    (proxy r) (redirectMax r) (decompressGzip r) (err r).
Definition set_cookies (r : Request) (c : list Cookie) : Request :=
  mkRequest (method r) (url r) (headers r) (query r) (body r) (timeout r) c
    (proxy r) (redirectMax r) (decompressGzip r) (err r).
Definition set_proxy (r : Request) (p : option URL) : Request :=
  mkRequest (method r) (url r) (headers r) (query r) (body r) (timeout r)
    (cookies r) p (redirectMax r) (decompressGzip r) (err r).
Definition set_redirectMax (r : Request) (m : option Z) : Request :=
  mkRequest (method r) (url r) (headers r) (query r) (body r) (timeout r)
    (cookies r) (proxy r) m (decompressGzip r) (err r).
Definition set_decompressGzip (r : Request) (b : bool) : Request :=
  mkRequest (method r) (url r) (headers r) (query r) (body r) (timeout r)
    (cookies r) (proxy r) (redirectMax r) b (err r).
Definition set_err (r : Request) (e : option error) : Request :=
  mkRequest (method r) (url r) (headers r) (query r) (body r) (timeout r)
    (cookies r) (proxy r) (redirectMax r) (decompressGzip r) e.

(** [if m == nil { m = make(...) }]: a nil map becomes an empty one. *)
Definition make_if_nil (m : option (gmap string (list string)))
  : gmap string (list string) :=
  default ∅ m.

Definition hSet := Header_Set CanonicalMIMEHeaderKey.
Definition hGet := Header_Get CanonicalMIMEHeaderKey.
Definition hValues := Header_Values CanonicalMIMEHeaderKey.
Definition Encode := Values_Encode url_QueryEscape.

(** ** Options (options.go) *)

(** The options the package constructs.  An [Option] is a Go closure over
    the constructor's arguments; it is represented by the constructor call
    that made it, and [apply] is the closure's body. *)
Inductive Option : Type :=
| WithHeader (key value : string)
| WithHeaders (h : list (string * string))
| WithQuery (q : list (string * string))
| WithTimeout (d : Z)
| WithDecompressGzip
| WithJSON (v : any)
| WithForm (values : list (string * string))
| WithBody (b : option Reader)
| WithCookies (cs : list Cookie)
| WithProxy (rawURL : string)
| WithRedirect (max : Z).

Definition apply (o : Option) (r : Request) : Request :=
  match o with
  | WithHeader key value =>
    set_headers r (Some (hSet key value (make_if_nil (headers r))))
  | WithHeaders h =>
    set_headers r
      (Some (fold_left (fun acc kv => hSet (fst kv) (snd kv) acc) h
               (make_if_nil (headers r))))
  | WithQuery q =>
    set_query r
      (Some (fold_left (fun acc kv => Values_Add (fst kv) (snd kv) acc) q
               (make_if_nil (query r))))
  | WithTimeout d => set_timeout r d
  | WithDecompressGzip => set_decompressGzip r true
  | WithJSON v =>
    match err r with
    | Some _ => r
    | None =>
      match json_Marshal v with
      | inr e => set_err r (Some (External e))
      | inl b =>
        let r1 := set_body r (Some (bytes_NewReader b)) in
        let h := make_if_nil (headers r1) in
        if decide (hGet "Content-Type" h = "")
        then set_headers r1 (Some (hSet "Content-Type" "application/json" h))
        else set_headers r1 (Some h)
      end
    end
  | WithForm values =>
    match err r with
    | Some _ => r
    | None =>
      let form :=
        fold_left (fun acc kv => Values_Set (fst kv) (snd kv) acc) values ∅ in
      let r1 := set_body r (Some (strings_NewReader (Encode form))) in
      set_headers r1
        (Some (hSet "Content-Type" "application/x-www-form-urlencoded"
                 (make_if_nil (headers r1))))
    end
  | WithBody b => set_body r b
  | WithCookies cs => set_cookies r (cookies r ++ cs)
  | WithProxy rawURL =>
    match err r with
    | Some _ => r
    | None =>
      match url_Parse rawURL with
      | inr e => set_err r (Some (External e))
      | inl u => set_proxy r (Some u)
      end
    end
  | WithRedirect max => set_redirectMax r (Some max)
  end.

(** One step of the loop of [newRequest]; a nil option is skipped. *)
Definition apply_opt (r : Request) (o : option Option) : Request :=
  match o with
  | Some f => apply f r
  | None => r
  end.

Definition zeroRequest (method rawURL : string) : Request :=
  mkRequest method rawURL None None None 0 [] None None false None.

Definition newRequest (method rawURL : string) (opts : list (option Option))
  : Request :=
  fold_left apply_opt opts (zeroRequest method rawURL).

(** [len(m)] of a possibly nil map is zero exactly when it has no entry. *)
Definition is_empty_map (m : option Values) : bool :=
  match m with
  | None => true
  | Some q => bool_decide (q = ∅)
  end.

(** The two nested loops of [buildURL]: every value of every key of
    [extra] is added to [q].  Keys are distinct, so the order in which
    [range] visits them does not matter. *)
Definition add_all (extra q : Values) : Values :=
  map_fold (fun k vals acc => fold_left (fun a v => Values_Add k v a) vals acc)
    q extra.

Definition buildURL (r : Request) : URL + error :=
  match url_Parse (url r) with
  | inr e => inr (External e)
  | inl u =>
    if is_empty_map (query r) then inl u
    else
      let q := add_all (make_if_nil (query r)) (url_ParseQuery (RawQuery u)) in
      inl (set_RawQuery u (Encode q))
  end.

(** ** The response wrapper (response.go) *)

Definition newResponse (resp : option HttpResponse) : option Response :=
  match resp with
  | None => None
  | Some raw =>
    Some (mkResponse (Some raw) (hresp_StatusCode raw) (hresp_Header raw)
            false [] None)
  end.

Definition set_Body (raw : HttpResponse) (b : option ReadCloser)
  : HttpResponse :=
  mkHttpResponse (hresp_StatusCode raw) (hresp_Header raw) b.

(** The function run under [once.Do]: [io.ReadAll] on the body, then the
    deferred [Close]; the two results are stored in the wrapper. *)
Definition readBody (w : Response) (raw : HttpResponse) (rc : ReadCloser)
  : Response :=
  let '((b, e), rc1) := rc_ReadAll rc in
  let rc2 := rc_Close rc1 in
  mkResponse (Some (set_Body raw (Some rc2))) (StatusCode w) (Headers w)
    true b (option_map External e).

(** [Bytes]: the two results, and the wrapper after the call ([None] is the
    nil receiver). *)
Definition Bytes (r : option Response)
  : (bytes * option error) * option Response :=
  match r with
  | None => (([], Some (Sentinel ErrResponseNil)), None)
  | Some w =>
    match Raw w with
    | None => (([], Some (Sentinel ErrResponseNil)), Some w)
    | Some raw =>
      match hresp_Body raw with
      | None => (([], Some (Sentinel ErrResponseNil)), Some w)
      | Some rc =>
        let w' := if once w then w else readBody w raw rc in
        ((resp_body w', bodyErr w'), Some w')
      end
    end
  end.

Definition Text (r : option Response)
  : (string * option error) * option Response :=
  let '((b, e), r') := Bytes r in
  ((string_of_list_byte b, e), r').

Definition JSON (r : option Response) (v : any)
  : option error * option Response :=
  let '((b, e), r') := Bytes r in
  match e with
  | Some e' => (Some e', r')
  | None =>
    if bool_decide (b = []) then (Some (Sentinel ErrNoContent), r')
    else (option_map External (json_Unmarshal b v), r')
  end.

(** ** Dispatch (httpclient.go) *)

(** The redirect policy installed for a cap [max]. *)
Definition checkRedirect (max : Z) (req : HttpRequest)
  (via : list HttpRequest) : option exterr :=
  if max <=? 0 then Some http_ErrUseLastResponse
  else if Z.of_nat (length via) >? max then Some http_ErrUseLastResponse
  else None.

Definition buildClient (r : Request) : Client :=
  let c := mkClient 0 None None in
  let c :=
    if 0 <? timeout r
    then mkClient (timeout r) (cl_Transport c) (CheckRedirect c) else c in
  let c :=
    match proxy r with
    | Some p =>
      mkClient (Timeout c)
        (Some (mkTransport DefaultTransport_is_Transport (Some p)))
        (CheckRedirect c)
    | None => c
    end in
  match redirectMax r with
  | Some max => mkClient (Timeout c) (cl_Transport c) (Some (checkRedirect max))
  | None => c
  end.

Definition classifyErr (e : exterr) : error :=
  if ext_deadline e then Errorf ErrTimeout (External e)
  else if ext_net_timeout e then Errorf ErrTimeout (External e)
  else Errorf ErrNetwork (External e).

(** [http.NewRequest]: an empty method stands for GET; the method and the
    URL text are then checked (the URL text is parsed) and may be rejected;
    otherwise the request has the method, an empty header and the body, and
    its URL is the one parsed from the text, kept here as that text. *)
Definition http_NewRequest (method urlText : string) (b : option Reader)
  : HttpRequest + exterr :=
  let method := if decide (method = "") then "GET" else method in
  match NewRequest_check method urlText with
  | Some e => inr e
  | None => inl (mkHttpRequest method urlText ∅ b)
  end.

(** [Request.AddCookie]: cookies share one [Cookie] header line. *)
Definition AddCookie (hr : HttpRequest) (c : Cookie) : HttpRequest :=
  let s := Cookie_pair c in
  let old := hGet "Cookie" (hreq_Header hr) in
  let line := if decide (old = "") then s else old +:+ "; " +:+ s in
  mkHttpRequest (hreq_Method hr) (hreq_URL hr)
    (hSet "Cookie" line (hreq_Header hr)) (hreq_Body hr).

(** One exchange handed to the transport: the client and the request. *)
Definition NetCall : Type := Client * HttpRequest.

(** [do]: the two results of the Go function, and the list of the exchanges
    it handed to the transport. *)
Definition do (method rawURL : string) (opts : list (option Option))
  : (option Response * option error) * list NetCall :=
  let req := newRequest method rawURL opts in
  match err req with
  | Some e => ((None, Some (Errorf ErrRequest e)), [])
  | None =>
    match buildURL req with
    | inr e => ((None, Some (Errorf ErrRequest e)), [])
    | inl u =>
      match http_NewRequest method (URL_String u) (body req) with
      | inr e => ((None, Some (Errorf ErrRequest (External e))), [])
      | inl hr0 =>
        let hr1 :=
          match headers req with
          | Some h => mkHttpRequest (hreq_Method hr0) (hreq_URL hr0) h
                        (hreq_Body hr0)
          | None => hr0
          end in
        let httpReq := fold_left AddCookie (cookies req) hr1 in
        let client := buildClient req in
        match client_Do client httpReq with
        | inr e => ((None, Some (classifyErr e)), [(client, httpReq)])
        | inl resp =>
          let wrapped := newResponse (Some resp) in
          if (hresp_StatusCode resp <? 200) || (hresp_StatusCode resp >=? 300)
          then ((wrapped,
                 Some (StatusError (hresp_StatusCode resp) wrapped)),
                [(client, httpReq)])
          else ((wrapped, None), [(client, httpReq)])
        end
      end
    end
  end.

Definition Get (u : string) (opts : list (option Option)) := do "GET" u opts.
Definition Post (u : string) (opts : list (option Option)) := do "POST" u opts.
Definition Put (u : string) (opts : list (option Option)) := do "PUT" u opts.
Definition Patch (u : string) (opts : list (option Option)) :=
  do "PATCH" u opts.
Definition Delete (u : string) (opts : list (option Option)) :=
  do "DELETE" u opts.
Definition Head (u : string) (opts : list (option Option)) := do "HEAD" u opts.
Definition Options (u : string) (opts : list (option Option)) :=
  do "OPTIONS" u opts.

(** ** Session (session.go) *)

Record Session : Type := mkSession {
  opts : list (option Option)
}.

(** [NewSession] copies its arguments into a fresh slice. *)
Definition NewSession (os : list (option Option)) : Session := mkSession os.

(** [Session.do]: the defaults, then the options of the call. *)
Definition Session_do (s : Session) (method u : string)
  (os : list (option Option)) :=
  let all := [] ++ opts s in
  let all := all ++ os in
  do method u all.

Definition Session_Get (s : Session) (u : string) os := Session_do s "GET" u os.
Definition Session_Post (s : Session) (u : string) os :=
  Session_do s "POST" u os.
Definition Session_Put (s : Session) (u : string) os := Session_do s "PUT" u os.
Definition Session_Patch (s : Session) (u : string) os :=
  Session_do s "PATCH" u os.
Definition Session_Delete (s : Session) (u : string) os :=
  Session_do s "DELETE" u os.
Definition Session_Head (s : Session) (u : string) os :=
  Session_do s "HEAD" u os.
Definition Session_Options (s : Session) (u : string) os :=
  Session_do s "OPTIONS" u os.

End Package.

(** ** The redirect loop of [http.Client]

    How net/http consults [CheckRedirect]: after each exchange whose
    response is a redirect that can be followed, the policy receives the
    next request and the requests made so far, oldest first; nil follows,
    [http.ErrUseLastResponse] returns the last response as it is with a nil
    error, any other error is returned.  A nil policy is the default policy,
    which stops after ten requests.  [roundTrip] is one exchange with the
    server, [next_request] gives the request a redirect response leads to.
    The result comes with the requests that were sent. *)

Section RedirectLoop.
Context `{GT : GoTypes}.
Variable roundTrip : HttpRequest -> HttpResponse + exterr.
Variable next_request : HttpRequest -> HttpResponse -> option HttpRequest.

Definition defaultCheckRedirect (req : HttpRequest) (via : list HttpRequest)
  : option exterr :=
  if (10 <=? length via)%nat
  then Some (mkExterr "stopped after 10 redirects" false false)
  else None.

(** The request a result of [roundTrip] redirects to, if any. *)
Definition redirect_of (req : HttpRequest) (res : HttpResponse + exterr)
  : option HttpRequest :=
  match res with
  | inl resp => next_request req resp
  | inr _ => None
  end.

Fixpoint follow (fuel : nat)
  (policy : HttpRequest -> list HttpRequest -> option exterr)
  (req : HttpRequest) (via : list HttpRequest)
  : option ((HttpResponse + exterr) * list HttpRequest) :=
  match fuel with
  | O => None
  | S fuel' =>
    let reqs := via ++ [req] in
    match roundTrip req with
    | inr e => Some (inr e, reqs)
    | inl resp =>
      match next_request req resp with
      | None => Some (inl resp, reqs)
      | Some next =>
        match policy next reqs with
        | None => follow fuel' policy next reqs
        | Some e =>
          if decide (e = http_ErrUseLastResponse)
          then Some (inl resp, reqs)
          else Some (inr e, reqs)
        end
      end
    end
  end.

(** The policy a client runs. *)
Definition policy_of (c : Client)
  : HttpRequest -> list HttpRequest -> option exterr :=
  default defaultCheckRedirect (CheckRedirect c).

End RedirectLoop.

(** ** A small implementation of the standard library, for running the code *)

Module Demo.

(** Dynamic values: a text, or a channel (which JSON cannot encode). *)
Inductive dyn : Type :=
| DText (s : string)
| DChan.

(** A finite body stream: the bytes still to be read, the error that ends
    the read (none: EOF), and whether it was closed. *)
Record stream : Type := mkStream {
  data : bytes;
  fail : option exterr;
  closed : bool
}.

#[export] Instance types : GoTypes := {| any := dyn; Stream := stream |}.

Definition errClosed : exterr :=
  mkExterr "http: read on closed response body" false false.

Definition readAll (s : stream) : (bytes * option exterr) * stream :=
  if closed s then (([], Some errClosed), s)
  else ((data s, fail s), mkStream [] (fail s) false).

Definition close (s : stream) : stream := mkStream (data s) (fail s) true.

Definition dquote : string := String (ascii_of_nat 34) EmptyString.

Definition marshal (v : dyn) : bytes + exterr :=
  match v with
  | DText s => inl (list_byte_of_string (dquote +:+ s +:+ dquote))
  | DChan => inr (mkExterr "json: unsupported type: chan int" false false)
  end.

(** Accepts the texts that start with an opening brace. *)
Definition unmarshal (b : bytes) (v : dyn) : option exterr :=
  match b with
  | Byte.x7b :: _ => None
  | _ => Some (mkExterr "invalid character looking for beginning of value"
                 false false)
  end.

(** Splits at the first occurrence of [sep]. *)
Fixpoint cut (sep : ascii) (s : string) : string * option string :=
  match s with
  | EmptyString => (EmptyString, None)
  | String c rest =>
    if Ascii.eqb c sep then (EmptyString, Some rest)
    else let '(a, b) := cut sep rest in (String c a, b)
  end.

(** Splits at every occurrence of [sep]. *)
Fixpoint split (sep : ascii) (s : string) : list string :=
  match s with
  | EmptyString => [EmptyString]
  | String c rest =>
    if Ascii.eqb c sep then EmptyString :: split sep rest
    else
      match split sep rest with
      | w :: ws => String c w :: ws
      | [] => [String c EmptyString]
      end
  end.

(** A URL text without a scheme before its colon is rejected; the rest is
    cut at the fragment and at the query. *)
Definition parse (s : string) : URL + exterr :=
  match s with
  | String ":" _ => inr (mkExterr "missing protocol scheme" false false)
  | _ =>
    let '(s1, frag) := cut "#" s in
    let '(s2, q) := cut "?" s1 in
    inl (mkURL "" "" s2 (default "" q) (default "" frag))
  end.

Definition urlString (u : URL) : string :=
  Scheme u +:+ Host u +:+ Path u
  +:+ (if decide (RawQuery u = "") then "" else "?" +:+ RawQuery u)
  +:+ (if decide (Fragment u = "") then "" else "#" +:+ Fragment u).

Definition is_lower (c : ascii) : bool :=
  let n := nat_of_ascii c in ((97 <=? n) && (n <=? 122))%nat.
Definition is_upper (c : ascii) : bool :=
  let n := nat_of_ascii c in ((65 <=? n) && (n <=? 90))%nat.
Definition is_digit (c : ascii) : bool :=
  let n := nat_of_ascii c in ((48 <=? n) && (n <=? 57))%nat.
Definition is_token (c : ascii) : bool :=
  is_lower c || is_upper c || is_digit c
  || existsb (Ascii.eqb c) (list_ascii_of_string "!#$%&'*+-.^_`|~").

Fixpoint canon_from (upper : bool) (s : string) : string :=
  match s with
  | EmptyString => EmptyString
  | String c rest =>
    let c' :=
      if upper && is_lower c then ascii_of_nat (nat_of_ascii c - 32)
      else if negb upper && is_upper c then ascii_of_nat (nat_of_ascii c + 32)
      else c in
    String c' (canon_from (Ascii.eqb c' "-") rest)
  end.

(** First letter and letters after a dash in upper case, the others in lower
    case; a key with a byte that is not a token byte is left as it is. *)
Definition canonical (s : string) : string :=
  if forallb is_token (list_ascii_of_string s) then canon_from true s else s.

Definition mkReq (m u : string) : HttpRequest := mkHttpRequest m u ∅ None.

Definition bodyOf (s : string) : option ReadCloser :=
  Some (mkReadCloser (mkStream (list_byte_of_string s) None false) []).

(** A body whose read delivers three bytes and then fails. *)
Definition errUnexpectedEOF : exterr := mkExterr "unexpected EOF" false false.

Definition brokenBody : option ReadCloser :=
  Some (mkReadCloser
          (mkStream (list_byte_of_string "par") (Some errUnexpectedEOF) false)
          []).

Definition location (u : string) : Header := {[ "Location" := [u] ]}.

(** The server: [/a] redirects to [/b], [/b] to [/c], [/redirect] to [/ok];
    [/s299] and [/bad] answer 299 and 400, [/empty] answers 204 without a
    body text, [/text] answers a text that is not JSON; [http://down] has no
    listener; every other address answers 200 with a JSON object. *)
Definition serve (req : HttpRequest) : HttpResponse + exterr :=
  let u := hreq_URL req in
  if decide (u = "http://srv/a")
  then inl (mkHttpResponse 302 (location "http://srv/b") (bodyOf ""))
  else if decide (u = "http://srv/b")
  then inl (mkHttpResponse 302 (location "http://srv/c") (bodyOf ""))
  else if decide (u = "http://srv/redirect")
  then inl (mkHttpResponse 302 (location "http://srv/ok") (bodyOf ""))
  else if decide (u = "http://srv/s299")
  then inl (mkHttpResponse 299 ∅ (bodyOf "odd"))
  else if decide (u = "http://srv/bad")
  then inl (mkHttpResponse 400 ∅ (bodyOf "bad"))
  else if decide (u = "http://srv/empty")
  then inl (mkHttpResponse 204 ∅ (bodyOf ""))
  else if decide (u = "http://srv/text")
  then inl (mkHttpResponse 200 ∅ (bodyOf "not json"))
  else if decide (u = "http://down")
  then inr (mkExterr "connection refused" false false)
  else inl (mkHttpResponse 200 ∅ (bodyOf "{}")).

(** A 3xx response with a location leads to a GET of that location. *)
Definition next (req : HttpRequest) (resp : HttpResponse)
  : option HttpRequest :=
  if (300 <=? hresp_StatusCode resp) && (hresp_StatusCode resp <? 400)
  then
    match hresp_Header resp !! "Location" with
    | Some (u :: _) =>
      Some (mkHttpRequest (hreq_Method req) u (hreq_Header req) None)
    | _ => None
    end
  else None.

Definition clientDo (c : Client) (req : HttpRequest)
  : HttpResponse + exterr :=
  match follow serve next 32 (policy_of c) req [] with
  | Some (res, _) => res
  | None => inr (mkExterr "too many redirects" false false)
  end.

#[export] Instance std : GoStd := {|
  json_Marshal := marshal;
  json_Unmarshal := unmarshal;
  url_Parse := parse;
  url_ParseQuery := ParseQuery;
  url_QueryEscape := QueryEscape;
  URL_String := urlString;
  CanonicalMIMEHeaderKey := canonical;
  Cookie_pair := fun c => Name c +:+ "=" +:+ Value c;
  NewRequest_check := fun _ _ => None;
  DefaultTransport_is_Transport := true;
  client_Do := clientDo;
  io_ReadAll := readAll;
  stream_Close := close
|}.

End Demo.

(** ** Sequences of accessor calls on one wrapper *)

Section Accessors.
Context `{GS : GoStd}.

(** A call of one of the three accessors of a wrapper. *)
Inductive Call : Type :=
| CallBytes
| CallText
| CallJSON (v : any).

(** What such a call returns. *)
Inductive Outcome : Type :=
| OutBytes (b : bytes) (e : option error)
| OutText (s : string) (e : option error)
| OutJSON (e : option error).

Definition call (c : Call) (r : option Response) : Outcome * option Response :=
  match c with
  | CallBytes => let '((b, e), r') := Bytes r in (OutBytes b e, r')
  | CallText => let '((s, e), r') := Text r in (OutText s e, r')
  | CallJSON v => let '(e, r') := JSON r v in (OutJSON e, r')
  end.

(** The calls of [cs] made one after the other on the same wrapper. *)
Fixpoint run (cs : list Call) (r : option Response)
  : list Outcome * option Response :=
  match cs with
  | [] => ([], r)
  | c :: cs' =>
    let '(o, r1) := call c r in
    let '(os, r2) := run cs' r1 in
    (o :: os, r2)
  end.

(** What a call returns when the body read gave the bytes [b] and the
    error [e]. *)
Definition outcome_from (b : bytes) (e : option error) (c : Call) : Outcome :=
  match c with
  | CallBytes => OutBytes b e
  | CallText => OutText (string_of_list_byte b) e
  | CallJSON v =>
    OutJSON
      match e with
      | Some e' => Some e'
      | None =>
        if bool_decide (b = []) then Some (Sentinel ErrNoContent)
        else option_map External (json_Unmarshal b v)
      end
  end.

(** The body stream a wrapper holds. *)
Definition body_stream (r : option Response) : option ReadCloser :=
  match r with
  | Some w =>
    match Raw w with
    | Some raw => hresp_Body raw
    | None => None
    end
  | None => None
  end.

End Accessors.

(** ** Relations on builders and options *)

Section Builders.
Context `{GS : GoStd}.

(** Two builders that agree on every field but the decompression flag. *)
Inductive same_but_gzip : Request -> Request -> Prop :=
| same_but_gzip_intro m u h q b t c p rm g1 g2 e :
    same_but_gzip (mkRequest m u h q b t c p rm g1 e)
      (mkRequest m u h q b t c p rm g2 e).



(** An element of an option list that is not a [WithQuery]. *)
Definition leaves_query (o : option Option) : Prop :=
  match o with
  | Some (WithQuery _) => False
  | _ => True
  end.

(** The cookies an element of an option list adds. *)
Definition cookies_of (o : option Option) : list Cookie :=
  match o with
  | Some (WithCookies cs) => cs
  | _ => []
  end.

(** Elements of an option list that are not a [WithTimeout], a
    [WithRedirect], a [WithProxy]. *)
Definition leaves_timeout (o : option Option) : Prop :=
  match o with
  | Some (WithTimeout _) => False
  | _ => True
  end.

Definition leaves_redirect (o : option Option) : Prop :=
  match o with
  | Some (WithRedirect _) => False
  | _ => True
  end.

Definition leaves_proxy (o : option Option) : Prop :=
  match o with
  | Some (WithProxy _) => False
  | _ => True
  end.

(** An option whose encoding or parsing step fails. *)
Definition option_fails (o : Option) : Prop :=
  match o with
  | WithJSON v => exists e, json_Marshal v = inr e
  | WithProxy p => exists e, url_Parse p = inr e
  | _ => False
  end.

(** The values that the entries of [l] give to the key [k], in order. *)
Definition values_for (k : string) (l : list (string * string))
  : list string :=
  map snd (List.filter (fun kv => bool_decide (fst kv = k)) l).

(** The entries of [l] whose key has the canonical form of [K]. *)
Definition entries_for_header (K : string) (l : list (string * string))
  : list (string * string) :=
  List.filter
    (fun kv =>
       bool_decide
         (CanonicalMIMEHeaderKey (fst kv) = CanonicalMIMEHeaderKey K)) l.

(** Every key of a header map is a canonical key and has one value. *)
Definition single_valued (h : Header) : Prop :=
  map_Forall
    (fun k vs =>
       (exists k0, k = CanonicalMIMEHeaderKey k0) /\ exists v, vs = [v]) h.

(** The error an accessor call returned. *)
Definition outcome_err (o : Outcome) : option error :=
  match o with
  | OutBytes _ e => e
  | OutText _ e => e
  | OutJSON e => e
  end.

End Builders.

(** * Properties *)

Section Properties.
Context `{GS : GoStd}.

(** ** The error slot *)

Ltac unfold_setters :=
  unfold set_headers, set_query, set_body, set_timeout, set_cookies,
    set_proxy, set_redirectMax, set_decompressGzip, set_err in *.

Lemma apply_keeps_err (o : Option) (r : Request) (e : error) :
  err r = Some e -> err (apply o r) = Some e.
Proof.
  intros He. destruct o; simpl; rewrite ?He; unfold_setters; simpl;
    first [exact He | reflexivity].
Qed.

Lemma fold_keeps_err (os : list (option Option)) (r : Request) (e : error) :
  err r = Some e -> err (fold_left apply_opt os r) = Some e.
Proof.
  revert r. induction os as [|o os IH]; intros r He; simpl; [exact He|].
  apply IH. destruct o as [o|]; simpl; [|exact He].
  now apply apply_keeps_err.
Qed.

Lemma newRequest_app (m u : string) (xs ys : list (option Option)) :
  newRequest m u (xs ++ ys) = fold_left apply_opt ys (newRequest m u xs).
Proof. unfold newRequest. apply fold_left_app. Qed.

Lemma do_err_set (m u : string) (os : list (option Option)) (e : error) :
  err (newRequest m u os) = Some e ->
  do m u os = ((None, Some (Errorf ErrRequest e)), []).
Proof. intros He. unfold do. now rewrite He. Qed.

(** C1. Once the error slot of the builder holds an error, no sequence of
    later options changes it; the three options that check the slot
    ([WithJSON], [WithForm], [WithProxy]) leave the whole builder as it is;
    and [do] on an option sequence whose fold has the slot set returns a nil
    wrapper and [ErrRequest] wrapping that error, having handed nothing to
    the transport. *)
Theorem C1_first_error_wins :
  (forall (r : Request) (e : error) (later : list (option Option)),
     err r = Some e -> err (fold_left apply_opt later r) = Some e) /\
  (forall (r : Request) (e : error) (v : any) (vs : list (string * string))
          (p : string),
     err r = Some e ->
     apply (WithJSON v) r = r /\ apply (WithForm vs) r = r /\
     apply (WithProxy p) r = r) /\
  (forall (m u : string) (before later : list (option Option)) (e : error),
     err (newRequest m u before) = Some e ->
     err (newRequest m u (before ++ later)) = Some e /\
     do m u (before ++ later) = ((None, Some (Errorf ErrRequest e)), []) /\
     errors_Is (Errorf ErrRequest e) ErrRequest = true).
Proof.
  split; [|split].
  - intros r e later He. now apply fold_keeps_err.
  - intros r e v vs p He. simpl. now rewrite He.
  - intros m u before later e He.
    assert (H : err (newRequest m u (before ++ later)) = Some e).
    { rewrite newRequest_app. now apply fold_keeps_err. }
    split; [exact H|]. split; [now apply do_err_set|reflexivity].
Qed.

(** ** The cached body *)

(** The wrapper after the first body read. *)
Lemma readBody_spec (w : Response) (raw : HttpResponse) (rc : ReadCloser) :
  let res := io_ReadAll (rc_stream rc) in
  readBody w raw rc =
  mkResponse
    (Some (set_Body raw
       (Some (mkReadCloser (stream_Close (snd res))
                (rc_ops rc ++ [OpReadAll; OpClose])))))
    (StatusCode w) (Headers w) true (fst (fst res))
    (option_map External (snd (fst res))).
Proof.
  unfold readBody, rc_ReadAll, rc_Close.
  destruct (io_ReadAll (rc_stream rc)) as [[b e] s']. simpl.
  now rewrite <- app_assoc.
Qed.

(** A wrapper whose [once] is done answers from its two cached fields and
    does not change. *)
Lemma Bytes_done (w : Response) (raw : HttpResponse) (rc : ReadCloser) :
  Raw w = Some raw -> hresp_Body raw = Some rc -> once w = true ->
  Bytes (Some w) = ((resp_body w, bodyErr w), Some w).
Proof. intros H1 H2 H3. unfold Bytes. now rewrite H1, H2, H3. Qed.

Lemma Bytes_first (w : Response) (raw : HttpResponse) (rc : ReadCloser) :
  Raw w = Some raw -> hresp_Body raw = Some rc -> once w = false ->
  Bytes (Some w) =
  ((resp_body (readBody w raw rc), bodyErr (readBody w raw rc)),
   Some (readBody w raw rc)).
Proof. intros H1 H2 H3. unfold Bytes. now rewrite H1, H2, H3. Qed.

Lemma call_from_Bytes (c : Call) (r r' : option Response) (b : bytes)
  (e : option error) :
  Bytes r = ((b, e), r') -> call c r = (outcome_from b e c, r').
Proof.
  intros H. destruct c; simpl; unfold Text, JSON; rewrite H; simpl;
    try reflexivity.
  destruct e; [reflexivity|]. now destruct (bool_decide (b = [])).
Qed.

Lemma run_done (cs : list Call) (w : Response) (raw : HttpResponse)
  (rc : ReadCloser) :
  Raw w = Some raw -> hresp_Body raw = Some rc -> once w = true ->
  run cs (Some w) = (map (outcome_from (resp_body w) (bodyErr w)) cs, Some w).
Proof.
  intros H1 H2 H3. induction cs as [|c cs IH]; simpl; [reflexivity|].
  rewrite (call_from_Bytes c _ _ _ _ (Bytes_done w raw rc H1 H2 H3)).
  now rewrite IH.
Qed.

(** C2. On a wrapper that holds a body stream and has not been read yet,
    any non-empty sequence of [Bytes], [Text] and [JSON] calls performs on
    the stream exactly one read followed by one close, whether or not the
    read failed, and every call of the sequence, the first one included,
    returns what it derives from the bytes and the error of that one read. *)
Theorem C2_body_read_once (w : Response) (raw : HttpResponse)
  (rc : ReadCloser) (cs : list Call) :
  Raw w = Some raw -> hresp_Body raw = Some rc -> once w = false ->
  cs <> [] ->
  let res := io_ReadAll (rc_stream rc) in
  let b := fst (fst res) in
  let e := option_map External (snd (fst res)) in
  fst (run cs (Some w)) = map (outcome_from b e) cs /\
  body_stream (snd (run cs (Some w))) =
    Some (mkReadCloser (stream_Close (snd res))
            (rc_ops rc ++ [OpReadAll; OpClose])).
Proof.
  intros H1 H2 H3 Hcs res b e.
  destruct cs as [|c cs]; [contradiction|]. simpl.
  rewrite (call_from_Bytes c _ _ _ _ (Bytes_first w raw rc H1 H2 H3)).
  pose proof (readBody_spec w raw rc) as Hw. simpl in Hw.
  fold res in Hw. fold b in Hw. fold e in Hw.
  rewrite Hw. 
  erewrite run_done; [|reflexivity|reflexivity|reflexivity].
  simpl. split; reflexivity.
Qed.

(** ** Status errors *)

(** The exchange [do] hands to the transport, when it hands one. *)
Lemma do_reaches_transport (m u : string) (os : list (option Option))
  (c : Client) (hr : HttpRequest) :
  snd (do m u os) = [(c, hr)] ->
  fst (do m u os) =
  match client_Do c hr with
  | inr e => (None, Some (classifyErr e))
  | inl resp =>
    if (hresp_StatusCode resp <? 200) || (hresp_StatusCode resp >=? 300)
    then (newResponse (Some resp),
          Some (StatusError (hresp_StatusCode resp) (newResponse (Some resp))))
    else (newResponse (Some resp), None)
  end.
Proof.
  unfold do.
  destruct (err (newRequest m u os)); [discriminate|].
  destruct (buildURL (newRequest m u os)) as [url0|]; [|discriminate].
  destruct (http_NewRequest m (URL_String url0) (body (newRequest m u os)))
    as [hr0|]; [|discriminate].
  set (client := buildClient _). set (httpReq := fold_left AddCookie _ _).
  destruct (client_Do client httpReq) as [resp|e] eqn:Hdo.
  - destruct ((hresp_StatusCode resp <? 200) || (hresp_StatusCode resp >=? 300))
      eqn:Hcode; simpl; intros [= <- <-]; now rewrite Hdo, Hcode.
  - simpl. intros [= <- <-]. now rewrite Hdo.
Qed.

(** C3, amended. When [do] hands an exchange to the transport and the
    transport returns a response, [do] returns the non-nil wrapper of that
    response; the error is nil when the status code is in 200..299, and
    otherwise a [StatusError] holding that status code and that wrapper. *)
Theorem C3_status_error_outside_2xx (m u : string)
  (os : list (option Option)) (c : Client) (hr : HttpRequest)
  (resp : HttpResponse) :
  snd (do m u os) = [(c, hr)] -> client_Do c hr = inl resp ->
  exists w : Response,
    Raw w = Some resp /\ StatusCode w = hresp_StatusCode resp /\
    fst (do m u os) =
      (Some w,
       if decide (200 <= hresp_StatusCode resp < 300) then None
       else Some (StatusError (hresp_StatusCode resp) (Some w))) /\
    (forall e, snd (fst (do m u os)) = Some e ->
       errors_Is e ErrStatus = true).
Proof.
  intros Htrace Hresp.
  pose proof (do_reaches_transport m u os c hr Htrace) as H.
  rewrite Hresp in H. simpl in H.
  exists (mkResponse (Some resp) (hresp_StatusCode resp) (hresp_Header resp)
            false [] None).
  split; [reflexivity|]. split; [reflexivity|].
  rewrite H. simpl.
  destruct (decide (200 <= hresp_StatusCode resp < 300)) as [Hin|Hout].
  - replace ((hresp_StatusCode resp <? 200) || (hresp_StatusCode resp >=? 300))
      with false by (symmetry; apply orb_false_iff; split; lia).
    split; [reflexivity|]. simpl. discriminate.
  - replace ((hresp_StatusCode resp <? 200) || (hresp_StatusCode resp >=? 300))
      with true by (symmetry; apply orb_true_iff; lia).
    split; [reflexivity|]. simpl. now intros e [= <-].
Qed.

(** ** Errors of the accessors *)

Lemma Bytes_nil_cases (w : Response) :
  Raw w = None \/
  (exists raw, Raw w = Some raw /\ hresp_Body raw = None) ->
  Bytes (Some w) = (([], Some (Sentinel ErrResponseNil)), Some w).
Proof.
  intros [H|[raw [H1 H2]]]; unfold Bytes.
  - now rewrite H.
  - now rewrite H1, H2.
Qed.

(** A failed read is returned as the reader made it. *)
Lemma Bytes_read_failure (w : Response) (raw : HttpResponse)
  (rc : ReadCloser) (b : bytes) (e : exterr) (s' : Stream) :
  Raw w = Some raw -> hresp_Body raw = Some rc -> once w = false ->
  io_ReadAll (rc_stream rc) = ((b, Some e), s') ->
  fst (Bytes (Some w)) = (b, Some (External e)) /\
  errors_Is (External e) ErrResponse = false.
Proof.
  intros H1 H2 H3 H4. rewrite (Bytes_first w raw rc H1 H2 H3).
  pose proof (readBody_spec w raw rc) as Hw. simpl in Hw.
  rewrite Hw, H4. simpl. split; reflexivity.
Qed.

(** [JSON] on an empty body does not decode. *)
Lemma JSON_empty (r r' : option Response) (v : any) :
  Bytes r = (([], None), r') ->
  fst (JSON r v) = Some (Sentinel ErrNoContent).
Proof. intros H. unfold JSON. now rewrite H. Qed.

(** A failed decode is returned as the decoder made it. *)
Lemma JSON_decode_failure (r r' : option Response) (b : bytes) (v : any)
  (e : exterr) :
  Bytes r = ((b, None), r') -> b <> [] -> json_Unmarshal b v = Some e ->
  fst (JSON r v) = Some (External e) /\
  errors_Is (External e) ErrResponse = false.
Proof.
  intros H Hb He. unfold JSON. rewrite H.
  rewrite bool_decide_eq_false_2 by exact Hb.
  rewrite He. split; reflexivity.
Qed.

(** ** The redirect cap *)

Lemma policy_of_cap (r : Request) (max : Z) :
  redirectMax r = Some max -> policy_of (buildClient r) = checkRedirect max.
Proof. intros H. unfold policy_of, buildClient. now rewrite H. Qed.

Section RedirectProps.
Variable rt : HttpRequest -> HttpResponse + exterr.
Variable nx : HttpRequest -> HttpResponse -> option HttpRequest.

(** With a cap of zero or less the first result is returned as it is. *)
Lemma follow_no_redirect (max : Z) (fuel : nat) (req : HttpRequest)
  (via : list HttpRequest) :
  max <= 0 ->
  follow rt nx (S fuel) (checkRedirect max) req via
  = Some (rt req, via ++ [req]).
Proof.
  intros Hmax. simpl. destruct (rt req) as [resp|e]; [|reflexivity].
  destruct (nx req resp) as [next|]; [|reflexivity].
  unfold checkRedirect. replace (max <=? 0) with true by (symmetry; lia).
  now rewrite decide_True.
Qed.

(** With a positive cap the loop ends within the cap, on a result of the
    transport that it returns as it is. *)
Lemma follow_capped (N : Z) (fuel : nat) :
  0 < N ->
  forall (req : HttpRequest) (via : list HttpRequest),
    Z.of_nat (length via) <= N ->
    (Z.to_nat N + 1 - length via <= fuel)%nat ->
    exists res sent lastreq,
      follow rt nx fuel (checkRedirect N) req via = Some (res, sent) /\
      last sent = Some lastreq /\ res = rt lastreq /\
      (length sent <= Z.to_nat N + 1)%nat /\
      ((length sent = Z.to_nat N + 1)%nat \/ redirect_of nx lastreq res = None).
Proof.
  intros HN. induction fuel as [|fuel IH]; intros req via Hvia Hfuel.
  { lia. }
  simpl.
  assert (Hlen : length (via ++ [req]) = S (length via)).
  { rewrite length_app. simpl. lia. }
  destruct (rt req) as [resp|e] eqn:Hrt.
  - destruct (nx req resp) as [next|] eqn:Hnx.
    + unfold checkRedirect at 1.
      replace (N <=? 0) with false by (symmetry; lia).
      destruct (Z.of_nat (length (via ++ [req])) >? N) eqn:Hcmp.
      * rewrite decide_True by reflexivity.
        exists (inl resp), (via ++ [req]), req.
        rewrite last_snoc, Hrt, Hlen. repeat split; lia.
      * apply IH; rewrite Hlen; lia.
    + exists (inl resp), (via ++ [req]), req.
      rewrite last_snoc, Hrt, Hlen. repeat split; try lia.
      right. simpl. exact Hnx.
  - exists (inr e), (via ++ [req]), req.
    rewrite last_snoc, Hrt, Hlen. repeat split; try lia. now right.
Qed.

End RedirectProps.

(** C6. [WithRedirect] stores the cap.  Without a cap the client has no
    policy of its own, so the transport's default is used.  With cap 0 the
    loop sends one request and returns its result as it is.  With a cap
    [N > 0] the loop sends at most [N + 1] requests, so it follows at most
    [N] redirects; its result is what the transport returned for the last
    request sent, never an error made by the policy; and it stops before
    the cap only on a result that is not a redirect. *)
Theorem C6_redirect_cap (r : Request) :
  (forall max, redirectMax (apply (WithRedirect max) r) = Some max) /\
  (redirectMax r = None -> CheckRedirect (buildClient r) = None) /\
  (redirectMax r = Some 0 ->
   forall rt nx fuel req,
     follow rt nx (S fuel) (policy_of (buildClient r)) req []
     = Some (rt req, [req])) /\
  (forall N, 0 < N -> redirectMax r = Some N ->
   forall rt nx fuel req, (Z.to_nat N < fuel)%nat ->
     exists res sent lastreq,
       follow rt nx fuel (policy_of (buildClient r)) req [] = Some (res, sent)
       /\ last sent = Some lastreq /\ res = rt lastreq
       /\ (length sent <= Z.to_nat N + 1)%nat
       /\ ((length sent = Z.to_nat N + 1)%nat
           \/ redirect_of nx lastreq res = None)).
Proof.
  split; [reflexivity|]. split; [|split].
  - intros H. unfold buildClient. rewrite H.
    destruct (proxy r); destruct (0 <? timeout r); reflexivity.
  - intros H rt nx fuel req. rewrite (policy_of_cap r 0 H).
    now apply follow_no_redirect.
  - intros N HN H rt nx fuel req Hfuel. rewrite (policy_of_cap r N H).
    apply follow_capped; simpl; lia.
Qed.

(** ** URL composition *)

#[local] Instance string_le_total : Total string_le.
Proof. intros a b. unfold string_le. apply String.leb_total. Qed.

Lemma string_le_cases (a b : string) :
  string_le a b <-> a = b \/ OrderedTypeEx.String_as_OT.lt a b.
Proof.
  unfold string_le, String.leb.
  rewrite <- OrderedTypeEx.String_as_OT.cmp_lt,
    <- OrderedTypeEx.String_as_OT.cmp_eq.
  unfold OrderedTypeEx.String_as_OT.cmp.
  destruct (String.compare a b); intuition congruence.
Qed.

#[local] Instance string_le_trans : Transitive string_le.
Proof.
  intros a b c. rewrite !string_le_cases.
  intros [->|Hab] [->|Hbc]; auto.
  right. eapply OrderedTypeEx.String_as_OT.lt_trans; eassumption.
Qed.

#[local] Instance string_le_refl : Reflexive string_le.
Proof. intros a. apply string_le_cases. now left. Qed.

Lemma sorted_keys_sorted (v : Values) :
  StronglySorted string_le (sorted_keys v).
Proof. unfold sorted_keys. apply StronglySorted_merge_sort; apply _. Qed.

Lemma elem_of_sorted_keys (v : Values) (k : string) :
  k ∈ sorted_keys v <-> is_Some (v !! k).
Proof.
  unfold sorted_keys. rewrite merge_sort_Permutation.
  rewrite list_elem_of_fmap. split.
  - intros [[k' l] [-> H]]. apply elem_of_map_to_list in H. now exists l.
  - intros [l H]. exists (k, l). split; [reflexivity|].
    now apply elem_of_map_to_list.
Qed.

Lemma elem_of_Values_pairs (v : Values) (k x : string) :
  (k, x) ∈ Values_pairs v <-> x ∈ default [] (v !! k).
Proof.
  unfold Values_pairs. rewrite list_elem_of_In, in_flat_map. split.
  - intros [k' [_ H]]. apply in_map_iff in H as [x' [[= -> ->] H]].
    now apply list_elem_of_In.
  - intros H. exists k. split.
    + apply list_elem_of_In, elem_of_sorted_keys.
      destruct (v !! k); [eauto|]. simpl in H. inversion H.
    + apply in_map_iff. exists x. split; [reflexivity|].
      now apply list_elem_of_In.
Qed.

Lemma pairs_keys_sorted (g : string -> list string) (l : list string) :
  StronglySorted string_le l ->
  StronglySorted string_le
    (map fst (flat_map (fun k => map (fun x => (k, x)) (g k)) l)).
Proof.
  induction 1 as [|k l Hl IH Hk]; simpl; [constructor|].
  rewrite map_app. induction (g k) as [|x xs IHx]; simpl; [exact IH|].
  constructor; [exact IHx|].
  apply Forall_app. split.
  - clear IHx. induction xs; simpl; constructor; [reflexivity|assumption].
  - apply Forall_forall. intros k' Hin.
    apply list_elem_of_In, in_map_iff in Hin as [[k'' x'] [<- Hin]].
    apply in_flat_map in Hin as [k3 [Hk3 Hin]].
    apply in_map_iff in Hin as [? [[= <- <-] _]]. simpl.
    rewrite Forall_forall in Hk. apply Hk. now apply list_elem_of_In.
Qed.

Lemma Values_pairs_sorted (v : Values) :
  StronglySorted string_le (map fst (Values_pairs v)).
Proof. apply pairs_keys_sorted, sorted_keys_sorted. Qed.

Lemma fold_Add_lookup (k : string) (vals : list string) (acc : Values)
  (k' : string) :
  default [] (fold_left (fun a v => Values_Add k v a) vals acc !! k')
  = default [] (acc !! k') ++ (if decide (k = k') then vals else []).
Proof.
  revert acc. induction vals as [|v vals IH]; intros acc; simpl.
  - destruct (decide _); now rewrite app_nil_r.
  - rewrite IH. unfold Values_Add. destruct (decide (k = k')) as [->|Hne].
    + rewrite lookup_insert_eq. simpl. now rewrite <- app_assoc.
    + now rewrite lookup_insert_ne.
Qed.

(** Each key ends with its values in [q] followed by its values in
    [extra]. *)
Lemma add_all_lookup (extra q : Values) (k : string) :
  default [] (add_all extra q !! k)
  = default [] (q !! k) ++ default [] (extra !! k).
Proof.
  unfold add_all. revert k.
  apply (map_fold_weak_ind
    (fun (r m : Values) => forall k,
       default [] (r !! k) = default [] (q !! k) ++ default [] (m !! k))).
  - intros k. rewrite lookup_empty. simpl. now rewrite app_nil_r.
  - intros i x m r Hi IH k. rewrite fold_Add_lookup, IH.
    destruct (decide (i = k)) as [->|Hne].
    + rewrite Hi, lookup_insert_eq. simpl. now rewrite app_nil_r.
    + rewrite lookup_insert_ne by exact Hne. now rewrite app_nil_r.
Qed.

(** Only [WithQuery] writes the query field, and no option writes the
    target. *)
Lemma fold_leaves_query (os : list (option Option)) (r : Request) :
  Forall leaves_query os ->
  query (fold_left apply_opt os r) = query r /\
  url (fold_left apply_opt os r) = url r.
Proof.
  revert r. induction os as [|o os IH]; intros r H; simpl; [easy|].
  apply Forall_cons in H as [Ho Hos].
  destruct (IH (apply_opt r o) Hos) as [-> ->].
  destruct o as [o|]; simpl; [|easy].
  destruct o; simpl in *; try easy; unfold_setters.
  - destruct (err r); [easy|]. destruct (json_Marshal v); [|easy].
    simpl. now destruct (decide _).
  - now destruct (err r).
  - destruct (err r); [easy|]. now destruct (url_Parse rawURL).
Qed.

Lemma fold_Values_Add (q : list (string * string)) (acc : Values)
  (k : string) :
  default []
    (fold_left (fun a kv => Values_Add (fst kv) (snd kv) a) q acc !! k)
  = default [] (acc !! k) ++ values_for k q.
Proof.
  revert acc. induction q as [|[k' v'] q IH]; intros acc; simpl.
  { unfold values_for. simpl. now rewrite app_nil_r. }
  rewrite IH. unfold values_for, Values_Add. simpl.
  destruct (decide (k' = k)) as [->|Hne].
  - rewrite lookup_insert_eq, bool_decide_eq_true_2 by reflexivity.
    simpl. now rewrite <- app_assoc.
  - rewrite lookup_insert_ne by exact Hne.
    now rewrite bool_decide_eq_false_2 by exact Hne.
Qed.

Lemma values_for_app (k : string) (l1 l2 : list (string * string)) :
  values_for k (l1 ++ l2) = values_for k l1 ++ values_for k l2.
Proof. unfold values_for. now rewrite List.filter_app, map_app. Qed.

Lemma values_for_block (k k' : string) (vs : list string) :
  values_for k (map (fun x => (k', x)) vs) = if decide (k' = k) then vs else [].
Proof.
  unfold values_for. induction vs as [|v vs IH]; simpl.
  { now destruct (decide _). }
  destruct (decide (k' = k)) as [Heq|Hne].
  - rewrite bool_decide_eq_true_2 by exact Heq. simpl. now rewrite IH.
  - rewrite bool_decide_eq_false_2 by exact Hne. exact IH.
Qed.

Lemma values_for_blocks (k : string) (g : string -> list string)
  (keys : list string) :
  NoDup keys ->
  values_for k (flat_map (fun k' => map (fun x => (k', x)) (g k')) keys)
  = if decide (k ∈ keys) then g k else [].
Proof.
  induction keys as [|k' keys IH]; intros Hnd; cbn [flat_map].
  { destruct (decide (k ∈ [])) as [H|_]; [inversion H|reflexivity]. }
  apply NoDup_cons in Hnd as [Hk' Hnd].
  rewrite values_for_app, values_for_block, (IH Hnd).
  destruct (decide (k' = k)) as [->|Hne];
    destruct (decide (k ∈ keys)) as [Hin|Hnin];
    destruct (decide (k ∈ _ :: keys)) as [Hin'|Hnin'];
    try reflexivity; try contradiction; try apply app_nil_r.
  - exfalso. apply Hnin'. now left.
  - exfalso. apply Hnin'. now right.
  - exfalso. apply elem_of_cons in Hin' as [->|H]; congruence.
Qed.

Lemma sorted_keys_NoDup (v : Values) : NoDup (sorted_keys v).
Proof.
  unfold sorted_keys.
  eapply NoDup_Permutation_proper; [apply merge_sort_Permutation|].
  apply (NoDup_fst_map_to_list v).
Qed.

(** The values that the encoding writes for a key are, in order, the values
    the key has. *)
Lemma values_for_Values_pairs (v : Values) (k : string) :
  values_for k (Values_pairs v) = default [] (v !! k).
Proof.
  unfold Values_pairs.
  rewrite (values_for_blocks k (fun k' => default [] (v !! k')))
    by apply sorted_keys_NoDup.
  destruct (decide (k ∈ sorted_keys v)) as [Hin|Hnin]; [reflexivity|].
  destruct (v !! k) as [vs|] eqn:Hk; [|reflexivity].
  exfalso. apply Hnin, elem_of_sorted_keys. now rewrite Hk.
Qed.

Lemma ParseQuery_lookup (raw k : string) :
  default [] (ParseQuery raw !! k) = values_for k (query_pairs raw).
Proof. unfold ParseQuery. now rewrite fold_Values_Add, lookup_empty. Qed.

(** C7, amended. For a base target that parses: when the builder holds no
    query parameter (as after any option sequence without [WithQuery]),
    [buildURL] returns the parsed URL itself, raw query included.
    Otherwise the composed URL differs from the parsed one in its raw query
    only, and that raw query is the text [k=v&k=v...] of escaped keys and
    values in which the keys are in sorted order and every key has, in
    order, the values of the pairs that [URL.Query] keeps from the base
    query (a piece that is empty, has a semicolon or a bad percent escape
    is dropped), followed by the values the builder holds for it.  For a
    base whose query is [a=1] and the added parameters [a=3] and [b=2] the
    raw query is the encoding of a=1, a=3, b=2. *)
Theorem C7_url_composition :
  (forall (r : Request) (u : URL),
     url_Parse (url r) = inl u -> is_empty_map (query r) = true ->
     buildURL r = inl u) /\
  (forall (m base : string) (os : list (option Option)) (u : URL),
     url_Parse base = inl u -> Forall leaves_query os ->
     buildURL (newRequest m base os) = inl u) /\
  (forall (r : Request) (u : URL),
     url_Parse (url r) = inl u -> is_empty_map (query r) = false ->
     (forall raw, url_ParseQuery raw = ParseQuery raw) ->
     exists (composed : URL) (pairs : list (string * string)),
       buildURL r = inl composed /\
       Scheme composed = Scheme u /\ Host composed = Host u /\
       Path composed = Path u /\ Fragment composed = Fragment u /\
       RawQuery composed
       = String.concat "&"
           (map (fun kv =>
                   url_QueryEscape (fst kv) +:+ "=" +:+ url_QueryEscape (snd kv))
              pairs) /\
       StronglySorted string_le (map fst pairs) /\
       (forall k,
          values_for k pairs
          = values_for k (query_pairs (RawQuery u))
            ++ default [] (make_if_nil (query r) !! k))) /\
  (forall (m base : string) (u : URL),
     url_Parse base = inl u -> RawQuery u = "a=1" ->
     (forall raw, url_ParseQuery raw = ParseQuery raw) ->
     exists composed : URL,
       buildURL
         (newRequest m base [Some (WithQuery [("a", "3"); ("b", "2")])])
       = inl composed /\
       RawQuery composed
       = String.concat "&"
           (map (fun kv =>
                   url_QueryEscape (fst kv) +:+ "=" +:+ url_QueryEscape (snd kv))
              [("a", "1"); ("a", "3"); ("b", "2")])).
Proof.
  split; [|split; [|split]].
  - intros r u Hu Hq. unfold buildURL. now rewrite Hu, Hq.
  - intros m base os u Hu Hos. unfold buildURL, newRequest.
    destruct (fold_leaves_query os (zeroRequest m base) Hos) as [-> ->].
    simpl. now rewrite Hu.
  - intros r u Hu Hq Hlaw.
    set (q := add_all (make_if_nil (query r)) (url_ParseQuery (RawQuery u))).
    exists (set_RawQuery u (Encode q)), (Values_pairs q).
    split; [unfold buildURL; now rewrite Hu, Hq|].
    repeat (split; [reflexivity|]).
    split; [apply Values_pairs_sorted|].
    intros k. subst q.
    now rewrite values_for_Values_pairs, add_all_lookup, Hlaw,
      ParseQuery_lookup.
  - intros m base u Hu Hraw Hlaw.
    exists (set_RawQuery u
              (Encode
                 (add_all (Values_Add "b" "2" (Values_Add "a" "3" ∅))
                    (ParseQuery "a=1")))).
    split.
    + unfold buildURL. simpl. rewrite Hu, Hlaw, Hraw. reflexivity.
    + reflexivity.
Qed.

(** ** Headers *)

Lemma hValues_hSet (k v : string) (h : Header) : hValues k (hSet k v h) = [v].
Proof.
  unfold hValues, hSet, Header_Values, Header_Set.
  now rewrite lookup_insert_eq.
Qed.

(** C8, amended. [WithJSON] leaves the headers as they are when the
    Content-Type value read by [Header.Get] is not the empty string, and,
    when it is the empty string (no such header, or one with an empty
    value), the error slot is unset and the value encodes, sets it to
    application/json.  [WithForm], when the error slot is unset, sets
    Content-Type to application/x-www-form-urlencoded whatever it was; when
    the slot is set it changes nothing. *)
Theorem C8_content_type (r : Request) :
  (forall v, hGet "Content-Type" (make_if_nil (headers r)) <> "" ->
     make_if_nil (headers (apply (WithJSON v) r)) = make_if_nil (headers r))
  /\
  (forall v b, err r = None -> json_Marshal v = inl b ->
     hGet "Content-Type" (make_if_nil (headers r)) = "" ->
     hValues "Content-Type" (make_if_nil (headers (apply (WithJSON v) r)))
     = ["application/json"]) /\
  (forall vs, err r = None ->
     hValues "Content-Type" (make_if_nil (headers (apply (WithForm vs) r)))
     = ["application/x-www-form-urlencoded"]) /\
  (forall vs e, err r = Some e -> apply (WithForm vs) r = r).
Proof.
  split; [|split; [|split]].
  - intros v Hct. simpl. destruct (err r); [reflexivity|].
    destruct (json_Marshal v); [|reflexivity]. simpl.
    now rewrite decide_False.
  - intros v b He Hm Hct. simpl. rewrite He, Hm. simpl.
    rewrite decide_True by exact Hct. simpl. apply hValues_hSet.
  - intros vs He. simpl. rewrite He. simpl. apply hValues_hSet.
  - intros vs e He. simpl. now rewrite He.
Qed.

Lemma hValues_hSet_other (k K v : string) (h : Header) :
  CanonicalMIMEHeaderKey k <> CanonicalMIMEHeaderKey K ->
  hValues K (hSet k v h) = hValues K h.
Proof.
  intros Hne. unfold hValues, hSet, Header_Values, Header_Set.
  now rewrite lookup_insert_ne.
Qed.





(** ** The decompression flag *)

Lemma same_but_gzip_refl (r : Request) : same_but_gzip r r.
Proof. destruct r. constructor. Qed.

Lemma apply_same_but_gzip (o : Option) (r1 r2 : Request) :
  same_but_gzip r1 r2 -> same_but_gzip (apply o r1) (apply o r2).
Proof.
  intros []. destruct o; simpl; unfold_setters; simpl; try constructor.
  - destruct e; [constructor|]. destruct (json_Marshal v); [|constructor].
    destruct (decide _); constructor.
  - destruct e; constructor.
  - destruct e; [constructor|]. destruct (url_Parse rawURL); constructor.
Qed.

Lemma fold_same_but_gzip (os : list (option Option)) (r1 r2 : Request) :
  same_but_gzip r1 r2 ->
  same_but_gzip (fold_left apply_opt os r1) (fold_left apply_opt os r2).
Proof.
  revert r1 r2. induction os as [|o os IH]; intros r1 r2 H; simpl; [exact H|].
  apply IH. destruct o as [o|]; simpl; [|exact H].
  now apply apply_same_but_gzip.
Qed.

(** Nothing after the fold reads the flag. *)
Lemma same_but_gzip_dispatch (r1 r2 : Request) :
  same_but_gzip r1 r2 ->
  err r1 = err r2 /\ buildURL r1 = buildURL r2 /\ body r1 = body r2 /\
  headers r1 = headers r2 /\ cookies r1 = cookies r2 /\
  buildClient r1 = buildClient r2.
Proof. intros []. repeat split; reflexivity. Qed.

Lemma WithDecompressGzip_invisible (m u : string)
  (before later : list (option Option)) :
  same_but_gzip (newRequest m u (before ++ [Some WithDecompressGzip] ++ later))
    (newRequest m u (before ++ later)).
Proof.
  rewrite !newRequest_app. simpl. apply fold_same_but_gzip.
  destruct (newRequest m u before). constructor.
Qed.

(** C10. [WithDecompressGzip] sets the flag of the builder, and that is its
    only effect: with the option added anywhere in an option sequence, the
    composed URL and the client configuration are the same, [do] hands the
    same exchange to the transport and returns the same wrapper and error,
    and so every sequence of accessor calls on the returned wrapper returns
    the same bytes, texts and errors. *)
Theorem C10_gzip_flag_is_write_only :
  (forall r, decompressGzip (apply WithDecompressGzip r) = true) /\
  (forall m u before later,
     let with_flag := before ++ [Some WithDecompressGzip] ++ later in
     let without := before ++ later in
     buildURL (newRequest m u with_flag) = buildURL (newRequest m u without) /\
     buildClient (newRequest m u with_flag)
     = buildClient (newRequest m u without) /\
     do m u with_flag = do m u without /\
     (forall cs,
        run cs (fst (fst (do m u with_flag)))
        = run cs (fst (fst (do m u without))))).
Proof.
  split; [reflexivity|]. intros m u before later with_flag without.
  pose proof (WithDecompressGzip_invisible m u before later) as H.
  fold with_flag in H. fold without in H.
  destruct (same_but_gzip_dispatch _ _ H) as (He & Hu & Hb & Hh & Hc & Hcl).
  assert (Hdo : do m u with_flag = do m u without).
  { unfold do. now rewrite He, Hu, Hb, Hh, Hc, Hcl. }
  repeat split; try assumption. intros cs. now rewrite Hdo.
Qed.

End Properties.

(** * Further properties of the package *)

Section Extras.
Context `{GS : GoStd}.

(** ** Outcomes of [do] *)

(** X1. When the transport fails, [do] returns a nil wrapper and an error
    of exactly one of two categories: [ErrTimeout] when the transport error
    is a deadline error or a network error that reports a timeout,
    [ErrNetwork] otherwise. *)
Theorem X1_transport_error_classified (m u : string)
  (os : list (option Option)) (c : Client) (hr : HttpRequest) (e : exterr) :
  snd (do m u os) = [(c, hr)] -> client_Do c hr = inr e ->
  exists er : error,
    fst (do m u os) = (None, Some er) /\
    errors_Is er ErrTimeout = ext_deadline e || ext_net_timeout e /\
    errors_Is er ErrNetwork = negb (ext_deadline e || ext_net_timeout e) /\
    (forall s, s <> ErrTimeout -> s <> ErrNetwork -> errors_Is er s = false).
Proof.
  intros Htrace He.
  pose proof (do_reaches_transport m u os c hr Htrace) as H.
  rewrite He in H. exists (classifyErr e). split; [exact H|].
  unfold classifyErr.
  destruct (ext_deadline e), (ext_net_timeout e); simpl;
    (split; [reflexivity|]; split; [reflexivity|]);
    intros s H1 H2; apply bool_decide_eq_false; congruence.
Qed.

(** No option writes the target of the builder. *)
Lemma fold_keeps_url (os : list (option Option)) (r : Request) :
  url (fold_left apply_opt os r) = url r.
Proof.
  revert r. induction os as [|o os IH]; intros r; simpl; [reflexivity|].
  rewrite IH. destruct o as [o|]; simpl; [|reflexivity].
  destruct o; simpl; try reflexivity.
  - destruct (err r); [reflexivity|]. destruct (json_Marshal v); [|reflexivity].
    simpl. now destruct (decide _).
  - now destruct (err r).
  - destruct (err r); [reflexivity|]. now destruct (url_Parse rawURL).
Qed.

(** X2. A target that does not parse makes [do] fail with an error of the
    [ErrRequest] category, whatever the options are, and nothing is handed
    to the transport. *)
Theorem X2_malformed_target (m u : string) (os : list (option Option))
  (e : exterr) :
  url_Parse u = inr e ->
  exists er : error,
    do m u os = ((None, Some er), []) /\ errors_Is er ErrRequest = true.
Proof.
  intros Hu. unfold do.
  destruct (err (newRequest m u os)) as [e0|].
  - eexists. split; reflexivity.
  - unfold buildURL, newRequest. rewrite fold_keeps_url. simpl. rewrite Hu.
    eexists. split; reflexivity.
Qed.

(** X3. [do] hands at most one exchange to the transport, and it hands none
    exactly when it returns a nil wrapper with an error of the [ErrRequest]
    category. *)
Theorem X3_request_error_iff_nothing_sent (m u : string)
  (os : list (option Option)) :
  (length (snd (do m u os)) <= 1)%nat /\
  (snd (do m u os) = [] <->
   exists er : error,
     fst (do m u os) = (None, Some er) /\ errors_Is er ErrRequest = true).
Proof.
  unfold do.
  destruct (err (newRequest m u os)) as [e0|].
  { simpl. split; [lia|]. split; [eauto|reflexivity]. }
  destruct (buildURL (newRequest m u os)) as [url0|e1].
  2:{ simpl. split; [lia|]. split; [eauto|reflexivity]. }
  destruct (http_NewRequest m (URL_String url0) (body (newRequest m u os)))
    as [hr0|e2].
  2:{ simpl. split; [lia|]. split; [eauto|reflexivity]. }
  set (client := buildClient _). set (httpReq := fold_left AddCookie _ _).
  destruct (client_Do client httpReq) as [resp|e3].
  - destruct ((hresp_StatusCode resp <? 200) || (hresp_StatusCode resp >=? 300));
      simpl; (split; [lia|]); (split; [discriminate|]);
      intros [er [[=] _]].
  - simpl. split; [lia|]. split; [discriminate|].
    intros [er [[= <-] Her]]. unfold classifyErr in Her.
    destruct (ext_deadline e3), (ext_net_timeout e3); discriminate.
Qed.

(** X4. The four shapes of the result of [do]: never a nil wrapper with a
    nil error; a wrapper with a nil error has a status code in 200..299; a
    wrapper with an error has a status code outside 200..299 and the error
    is the [StatusError] of that code and that wrapper; an error without a
    wrapper is never of the [ErrStatus] category. *)
Theorem X4_result_shapes (m u : string) (os : list (option Option)) :
  match fst (do m u os) with
  | (None, None) => False
  | (Some w, None) => 200 <= StatusCode w < 300
  | (Some w, Some er) =>
    ~ (200 <= StatusCode w < 300) /\
    er = StatusError (StatusCode w) (Some w)
  | (None, Some er) => errors_Is er ErrStatus = false
  end.
Proof.
  unfold do.
  destruct (err (newRequest m u os)) as [e0|]; [reflexivity|].
  destruct (buildURL (newRequest m u os)) as [url0|e1]; [|reflexivity].
  destruct (http_NewRequest m (URL_String url0) (body (newRequest m u os)))
    as [hr0|e2]; [|reflexivity].
  set (client := buildClient _). set (httpReq := fold_left AddCookie _ _).
  destruct (client_Do client httpReq) as [resp|e3].
  - destruct ((hresp_StatusCode resp <? 200) || (hresp_StatusCode resp >=? 300))
      eqn:Hc; simpl.
    + apply orb_true_iff in Hc. split; [lia|reflexivity].
    + apply orb_false_iff in Hc. lia.
  - simpl. unfold classifyErr.
    destruct (ext_deadline e3), (ext_net_timeout e3); reflexivity.
Qed.

(** ** The exchange [do] sends *)

Lemma fold_AddCookie_fields (cs : list Cookie) (hr : HttpRequest) :
  hreq_Method (fold_left AddCookie cs hr) = hreq_Method hr /\
  hreq_URL (fold_left AddCookie cs hr) = hreq_URL hr /\
  hreq_Body (fold_left AddCookie cs hr) = hreq_Body hr.
Proof.
  revert hr. induction cs as [|c cs IH]; intros hr; simpl; [easy|].
  destruct (IH (AddCookie hr c)) as (-> & -> & ->). easy.
Qed.

Lemma fold_AddCookie_other (K : string) (cs : list Cookie) (hr : HttpRequest) :
  CanonicalMIMEHeaderKey "Cookie" <> CanonicalMIMEHeaderKey K ->
  hValues K (hreq_Header (fold_left AddCookie cs hr))
  = hValues K (hreq_Header hr).
Proof.
  intros HK. revert hr. induction cs as [|c cs IH]; intros hr; simpl;
    [reflexivity|].
  rewrite IH. simpl. now apply hValues_hSet_other.
Qed.

(** What [do] sends, when it sends: one exchange, made of the client built
    from the folded builder and of the request with the method (GET for an
    empty one), the text of the composed URL, the builder's headers and
    body, to which the cookies are added. *)
Lemma do_sent_shape (m u : string) (os : list (option Option)) :
  snd (do m u os) = [] \/
  exists composed : URL,
    err (newRequest m u os) = None /\
    buildURL (newRequest m u os) = inl composed /\
    snd (do m u os)
    = [(buildClient (newRequest m u os),
        fold_left AddCookie (cookies (newRequest m u os))
          (mkHttpRequest (if decide (m = "") then "GET" else m)
             (URL_String composed)
             (make_if_nil (headers (newRequest m u os)))
             (body (newRequest m u os))))].
Proof.
  unfold do. set (req := newRequest m u os).
  destruct (err req) as [e0|]; [now left|].
  destruct (buildURL req) as [url0|e1]; [|now left].
  unfold http_NewRequest.
  destruct (NewRequest_check _ (URL_String url0)) as [e2|]; [now left|].
  right. exists url0. split; [reflexivity|]. split; [reflexivity|].
  replace (match headers req with
           | Some h => _
           | None => _
           end)
    with (mkHttpRequest (if decide (m = "") then "GET" else m)
            (URL_String url0) (make_if_nil (headers req)) (body req))
    by (destruct (headers req); reflexivity).
  destruct (client_Do _ _) as [resp|e3];
    [destruct ((_ <? _) || (_ >=? _))|]; reflexivity.
Qed.

(** X5. The exchange that [do] hands to the transport reflects the folded
    builder: the client is the one built from it; the request has the
    method given to [do], or GET when that method is empty, and the
    builder's body, and was made from the text of the composed URL; its
    headers are the builder's when it has no cookie, and in any case agree
    with the builder's on every key other than Cookie. *)
Theorem X5_sent_request_reflects_builder (m u : string)
  (os : list (option Option)) (c : Client) (hr : HttpRequest) :
  snd (do m u os) = [(c, hr)] ->
  err (newRequest m u os) = None /\
  c = buildClient (newRequest m u os) /\
  hreq_Method hr = (if decide (m = "") then "GET" else m) /\
  hreq_Body hr = body (newRequest m u os) /\
  (exists composed : URL,
     buildURL (newRequest m u os) = inl composed /\
     hreq_URL hr = URL_String composed) /\
  (cookies (newRequest m u os) = [] ->
   hreq_Header hr = make_if_nil (headers (newRequest m u os))) /\
  (forall K,
     CanonicalMIMEHeaderKey "Cookie" <> CanonicalMIMEHeaderKey K ->
     hValues K (hreq_Header hr)
     = hValues K (make_if_nil (headers (newRequest m u os)))).
Proof.
  intros Htrace.
  destruct (do_sent_shape m u os) as [Hnil|(composed & He & Hu & Hsent)];
    [congruence|].
  rewrite Hsent in Htrace. injection Htrace as <- <-.
  set (hr1 := mkHttpRequest _ _ _ _).
  destruct (fold_AddCookie_fields (cookies (newRequest m u os)) hr1)
    as (Fm & Fu & Fb).
  split; [exact He|]. split; [reflexivity|].
  split; [exact Fm|]. split; [exact Fb|].
  split; [exists composed; split; [exact Hu|exact Fu]|].
  split.
  - intros Hc. now rewrite Hc.
  - intros K HK. now rewrite fold_AddCookie_other by exact HK.
Qed.

Lemma do_sent_method (m u : string) (os : list (option Option))
  (call : NetCall) :
  call ∈ snd (do m u os) ->
  hreq_Method (snd call) = (if decide (m = "") then "GET" else m).
Proof.
  intros Hin.
  destruct (do_sent_shape m u os) as [Hnil|(composed & _ & _ & Hsent)].
  - rewrite Hnil in Hin. inversion Hin.
  - rewrite Hsent in Hin. apply list_elem_of_singleton in Hin as ->.
    simpl. apply fold_AddCookie_fields.
Qed.

(** X6. The request that each of the seven functions of the package, and
    each of the seven methods of a session, hands to [Client.Do] carries the
    function's own HTTP method.  (The requests that net/http makes by itself
    when it follows a redirect are not handed over by the package and are
    not covered.) *)
Theorem X6_verbs_request_method (s : Session) (u : string)
  (os : list (option Option)) (call : NetCall) :
  (call ∈ snd (Get u os) -> hreq_Method (snd call) = "GET") /\
  (call ∈ snd (Post u os) -> hreq_Method (snd call) = "POST") /\
  (call ∈ snd (Put u os) -> hreq_Method (snd call) = "PUT") /\
  (call ∈ snd (Patch u os) -> hreq_Method (snd call) = "PATCH") /\
  (call ∈ snd (Delete u os) -> hreq_Method (snd call) = "DELETE") /\
  (call ∈ snd (Head u os) -> hreq_Method (snd call) = "HEAD") /\
  (call ∈ snd (Options u os) -> hreq_Method (snd call) = "OPTIONS") /\
  (call ∈ snd (Session_Get s u os) -> hreq_Method (snd call) = "GET") /\
  (call ∈ snd (Session_Post s u os) -> hreq_Method (snd call) = "POST") /\
  (call ∈ snd (Session_Put s u os) -> hreq_Method (snd call) = "PUT") /\
  (call ∈ snd (Session_Patch s u os) -> hreq_Method (snd call) = "PATCH") /\
  (call ∈ snd (Session_Delete s u os) -> hreq_Method (snd call) = "DELETE") /\
  (call ∈ snd (Session_Head s u os) -> hreq_Method (snd call) = "HEAD") /\
  (call ∈ snd (Session_Options s u os)
   -> hreq_Method (snd call) = "OPTIONS").
Proof. repeat split; intros H; exact (do_sent_method _ _ _ _ H). Qed.

(** ** Options that fail *)

Lemma failing_option_sets_err (o : Option) (r : Request) :
  option_fails o -> exists e, err (apply o r) = Some e.
Proof.
  destruct o; simpl; try contradiction; intros [e He].
  - destruct (err r) as [e0|] eqn:Hr; [eauto|]. rewrite He. simpl. eauto.
  - destruct (err r) as [e0|] eqn:Hr; [eauto|]. rewrite He. simpl. eauto.
Qed.

(** X7. An option whose encoding or parsing step fails (a value that JSON
    cannot encode, a proxy URL that does not parse) makes [do] fail with an
    error of the [ErrRequest] category wherever it stands in the option
    sequence, and nothing is handed to the transport. *)
Theorem X7_failing_option_anywhere (m u : string)
  (before later : list (option Option)) (o : Option) :
  option_fails o ->
  exists er : error,
    do m u (before ++ [Some o] ++ later) = ((None, Some er), []) /\
    errors_Is er ErrRequest = true.
Proof.
  intros Hf.
  destruct (failing_option_sets_err o (newRequest m u before) Hf) as [e He].
  exists (Errorf ErrRequest e). split; [|reflexivity].
  apply do_err_set. rewrite !newRequest_app. simpl.
  now apply fold_keeps_err.
Qed.

(** ** Last writer wins for the scalar settings *)

Lemma fold_leaves_timeout (os : list (option Option)) (r : Request) :
  Forall leaves_timeout os -> timeout (fold_left apply_opt os r) = timeout r.
Proof.
  revert r. induction os as [|o os IH]; intros r H; simpl; [reflexivity|].
  apply Forall_cons in H as [Ho Hos]. rewrite IH by exact Hos.
  destruct o as [o|]; simpl; [|reflexivity].
  destruct o; simpl in *; try easy.
  - destruct (err r); [reflexivity|]. destruct (json_Marshal v); [|reflexivity].
    simpl. now destruct (decide _).
  - now destruct (err r).
  - destruct (err r); [reflexivity|]. now destruct (url_Parse rawURL).
Qed.

Lemma fold_leaves_redirect (os : list (option Option)) (r : Request) :
  Forall leaves_redirect os ->
  redirectMax (fold_left apply_opt os r) = redirectMax r.
Proof.
  revert r. induction os as [|o os IH]; intros r H; simpl; [reflexivity|].
  apply Forall_cons in H as [Ho Hos]. rewrite IH by exact Hos.
  destruct o as [o|]; simpl; [|reflexivity].
  destruct o; simpl in *; try easy.
  - destruct (err r); [reflexivity|]. destruct (json_Marshal v); [|reflexivity].
    simpl. now destruct (decide _).
  - now destruct (err r).
  - destruct (err r); [reflexivity|]. now destruct (url_Parse rawURL).
Qed.

Lemma fold_leaves_proxy (os : list (option Option)) (r : Request) :
  Forall leaves_proxy os -> proxy (fold_left apply_opt os r) = proxy r.
Proof.
  revert r. induction os as [|o os IH]; intros r H; simpl; [reflexivity|].
  apply Forall_cons in H as [Ho Hos]. rewrite IH by exact Hos.
  destruct o as [o|]; simpl; [|reflexivity].
  destruct o; simpl in *; try easy.
  - destruct (err r); [reflexivity|]. destruct (json_Marshal v); [|reflexivity].
    simpl. now destruct (decide _).
  - now destruct (err r).
Qed.

Lemma buildClient_Timeout (r : Request) :
  Timeout (buildClient r) = Z.max 0 (timeout r).
Proof.
  unfold buildClient.
  destruct (redirectMax r), (proxy r), (0 <? timeout r) eqn:Ht; simpl; lia.
Qed.

(** X8. The timeout of the client is that of the last [WithTimeout] of the
    option sequence when it is positive; a zero or negative one, like no
    [WithTimeout] at all, leaves the client without a timeout. *)
Theorem X8_last_timeout_wins (m u : string) :
  (forall before later d,
     Forall leaves_timeout later ->
     Timeout
       (buildClient (newRequest m u (before ++ [Some (WithTimeout d)] ++ later)))
     = Z.max 0 d) /\
  (forall os,
     Forall leaves_timeout os -> Timeout (buildClient (newRequest m u os)) = 0).
Proof.
  split.
  - intros before later d H. rewrite buildClient_Timeout, !newRequest_app.
    simpl. now rewrite fold_leaves_timeout by exact H.
  - intros os H. rewrite buildClient_Timeout. unfold newRequest.
    now rewrite fold_leaves_timeout by exact H.
Qed.

(** X9. The redirect policy of the client is that of the last
    [WithRedirect] of the option sequence; without any [WithRedirect] the
    client has no policy; and a negative cap acts as cap 0: the loop sends
    one request and returns its result as it is. *)
Theorem X9_last_redirect_wins (m u : string) :
  (forall before later max,
     Forall leaves_redirect later ->
     CheckRedirect
       (buildClient (newRequest m u (before ++ [Some (WithRedirect max)] ++ later)))
     = Some (checkRedirect max)) /\
  (forall os,
     Forall leaves_redirect os ->
     CheckRedirect (buildClient (newRequest m u os)) = None) /\
  (forall max rt nx fuel req,
     max < 0 ->
     follow rt nx (S fuel) (checkRedirect max) req [] = Some (rt req, [req])).
Proof.
  split; [|split].
  - intros before later max H. unfold buildClient.
    rewrite !newRequest_app. simpl.
    now rewrite (fold_leaves_redirect later _ H).
  - intros os H. unfold buildClient, newRequest.
    rewrite (fold_leaves_redirect os _ H). simpl.
    destruct (proxy _); destruct (0 <? _); reflexivity.
  - intros max rt nx fuel req Hmax.
    apply (follow_no_redirect rt nx max fuel req []). lia.
Qed.

(** X10. A [WithProxy] whose URL parses, applied to a builder without
    error and followed by no other [WithProxy], gives the client a transport
    that routes through that proxy; an option sequence without [WithProxy]
    leaves the client on the default transport. *)
Theorem X10_proxy_transport :
  (forall r p parsed later,
     err r = None -> url_Parse p = inl parsed -> Forall leaves_proxy later ->
     cl_Transport
       (buildClient (fold_left apply_opt later (apply (WithProxy p) r)))
     = Some (mkTransport DefaultTransport_is_Transport (Some parsed))) /\
  (forall m u os,
     Forall leaves_proxy os ->
     cl_Transport (buildClient (newRequest m u os)) = None).
Proof.
  split.
  - intros r p parsed later He Hp H. unfold buildClient.
    rewrite (fold_leaves_proxy later _ H). simpl. rewrite He, Hp. simpl.
    now destruct (redirectMax _).
  - intros m u os H. unfold buildClient, newRequest.
    rewrite (fold_leaves_proxy os _ H). simpl.
    destruct (redirectMax _); destruct (0 <? _); reflexivity.
Qed.

(** ** The shape of the headers *)

Lemma hSet_single_valued (k v : string) (h : Header) :
  single_valued h -> single_valued (hSet k v h).
Proof.
  intros H. apply map_Forall_insert_2; [|exact H]. split; eauto.
Qed.

Lemma apply_single_valued (o : Option) (r : Request) :
  single_valued (make_if_nil (headers r)) ->
  single_valued (make_if_nil (headers (apply o r))).
Proof.
  intros H. destruct o; simpl; try exact H.
  - now apply hSet_single_valued.
  - revert H. generalize (make_if_nil (headers r)).
    induction h as [|kv h IH]; intros acc H; simpl; [exact H|].
    apply IH. now apply hSet_single_valued.
  - destruct (err r); [exact H|]. destruct (json_Marshal v); [|exact H].
    simpl. destruct (decide _); simpl; [|exact H].
    now apply hSet_single_valued.
  - destruct (err r); [exact H|]. simpl. now apply hSet_single_valued.
  - destruct (err r); [exact H|]. now destruct (url_Parse rawURL).
Qed.

Lemma newRequest_single_valued (m u : string) (os : list (option Option)) :
  single_valued (make_if_nil (headers (newRequest m u os))).
Proof.
  unfold newRequest.
  assert (H : single_valued (make_if_nil (headers (zeroRequest m u)))).
  { apply map_Forall_empty. }
  revert H. generalize (zeroRequest m u).
  induction os as [|o os IH]; intros r H; simpl; [exact H|].
  apply IH. destruct o as [o|]; simpl; [|exact H].
  now apply apply_single_valued.
Qed.

(** ** Cookies *)

Lemma fold_cookies (os : list (option Option)) (r : Request) :
  cookies (fold_left apply_opt os r) = cookies r ++ flat_map cookies_of os.
Proof.
  revert r. induction os as [|o os IH]; intros r; simpl.
  { now rewrite app_nil_r. }
  rewrite IH. destruct o as [o|]; simpl; [|reflexivity].
  destruct o; simpl; try reflexivity.
  - destruct (err r); [reflexivity|]. destruct (json_Marshal v); [|reflexivity].
    simpl. now destruct (decide _).
  - now destruct (err r).
  - now rewrite <- app_assoc.
  - destruct (err r); [reflexivity|]. now destruct (url_Parse rawURL).
Qed.

(** X11. The cookies of the folded builder are the cookies of all the
    [WithCookies] options of the sequence, in the order of the options: no
    option removes or reorders cookies. *)
Theorem X11_cookies_accumulate (m u : string) (os : list (option Option)) :
  cookies (newRequest m u os) = flat_map cookies_of os.
Proof. unfold newRequest. now rewrite fold_cookies. Qed.

Lemma string_app_assoc (a b c : string) : (a +:+ b) +:+ c = a +:+ (b +:+ c).
Proof.
  induction a as [|x a IH]; [reflexivity|].
  change (String x ((a +:+ b) +:+ c) = String x (a +:+ (b +:+ c))).
  now f_equal.
Qed.

Lemma concat_cons2 (sep x y : string) (l : list string) :
  String.concat sep (x :: y :: l)
  = x +:+ sep +:+ String.concat sep (y :: l).
Proof. reflexivity. Qed.

Lemma string_app_not_empty (a b : string) : a <> "" -> a +:+ b <> "".
Proof. destruct a; [congruence|]. discriminate. Qed.

Lemma hGet_hSet_same (k v : string) (h : Header) : hGet k (hSet k v h) = v.
Proof.
  unfold hGet, hSet, Header_Get, Header_Set. now rewrite lookup_insert_eq.
Qed.

(** Cookies added to a request that already has a Cookie line. *)
Lemma fold_AddCookie_line (cs : list Cookie) (hr : HttpRequest)
  (line : string) :
  line <> "" -> hValues "Cookie" (hreq_Header hr) = [line] ->
  hValues "Cookie" (hreq_Header (fold_left AddCookie cs hr))
  = [String.concat "; " (line :: map Cookie_pair cs)].
Proof.
  revert hr line. induction cs as [|c cs IH]; intros hr line Hne Hline.
  { exact Hline. }
  cbn [fold_left].
  assert (Hget : hGet "Cookie" (hreq_Header hr) = line).
  { unfold hGet, Header_Get. unfold hValues, Header_Values in Hline.
    destruct (hreq_Header hr !! CanonicalMIMEHeaderKey "Cookie");
      simpl in Hline; [now subst|discriminate]. }
  rewrite (IH (AddCookie hr c) (line +:+ "; " +:+ Cookie_pair c)).
  - f_equal. cbn [map].
    destruct (map Cookie_pair cs) as [|p ps]; [reflexivity|].
    rewrite (concat_cons2 "; " line), !(concat_cons2 "; " _ p).
    now rewrite !string_app_assoc.
  - now apply string_app_not_empty.
  - unfold AddCookie. cbn [hreq_Header]. rewrite Hget.
    rewrite decide_False by exact Hne. apply hValues_hSet.
Qed.

Lemma hValues_of_hGet (K line : string) (h : Header) :
  single_valued h -> hGet K h = line -> line <> "" -> hValues K h = [line].
Proof.
  unfold hGet, hValues, Header_Get, Header_Values. intros Hs Hget Hne.
  destruct (h !! CanonicalMIMEHeaderKey K) as [vs|] eqn:Hk;
    [|simpl in *; congruence].
  destruct (Hs _ _ Hk) as [_ [v ->]]. simpl in *. now subst.
Qed.

(** X12. The request that [do] sends carries all the cookies of the builder
    on one Cookie header value, in the order of the builder, separated by a
    semicolon and a space (every cookie having a non-empty text): alone when
    the builder's headers have no Cookie value, and after that value
    otherwise. *)
Theorem X12_cookies_on_one_line (m u : string) (os : list (option Option))
  (c : Client) (hr : HttpRequest) :
  snd (do m u os) = [(c, hr)] ->
  cookies (newRequest m u os) <> [] ->
  Forall (fun c => Cookie_pair c <> "") (cookies (newRequest m u os)) ->
  let own := hGet "Cookie" (make_if_nil (headers (newRequest m u os))) in
  let pairs := map Cookie_pair (cookies (newRequest m u os)) in
  hValues "Cookie" (hreq_Header hr)
  = [String.concat "; " (if decide (own = "") then pairs else own :: pairs)].
Proof.
  intros Htrace Hcs Hne own pairs.
  destruct (do_sent_shape m u os) as [Hnil|(composed & _ & _ & Hsent)];
    [congruence|].
  rewrite Hsent in Htrace. injection Htrace as <- <-.
  subst pairs. set (req := newRequest m u os) in *.
  destruct (decide (own = "")) as [Hown|Hown].
  - destruct (cookies req) as [|c0 cs]; [contradiction|].
    apply Forall_cons in Hne as [Hc _]. cbn [fold_left map].
    apply fold_AddCookie_line; [exact Hc|].
    unfold AddCookie. cbn [hreq_Header]. fold own. rewrite Hown.
    rewrite decide_True by reflexivity. apply hValues_hSet.
  - apply fold_AddCookie_line; [exact Hown|]. cbn [hreq_Header].
    apply hValues_of_hGet; [|reflexivity|exact Hown].
    apply newRequest_single_valued.
Qed.

(** ** Query parameters, headers and form values given as maps *)

(** X13. [WithQuery] only adds: after it every key has the values it had
    before, followed by the values the given entries have for it, in their
    order; so repeated [WithQuery] options accumulate. *)
Theorem X13_WithQuery_accumulates (q : list (string * string)) (r : Request)
  (k : string) :
  default [] (make_if_nil (query (apply (WithQuery q) r)) !! k)
  = default [] (make_if_nil (query r) !! k) ++ values_for k q.
Proof. simpl. apply fold_Values_Add. Qed.

Lemma fold_hSet_last (K : string) (l : list (string * string)) (h : Header) :
  hValues K (fold_left (fun acc kv => hSet (fst kv) (snd kv) acc) l h)
  = match last (entries_for_header K l) with
    | Some kv => [snd kv]
    | None => hValues K h
    end.
Proof.
  revert h. induction l as [|[k v] l IH]; intros h; simpl; [reflexivity|].
  rewrite IH. unfold entries_for_header. simpl.
  destruct (decide (CanonicalMIMEHeaderKey k = CanonicalMIMEHeaderKey K))
    as [Heq|Hne].
  - rewrite bool_decide_eq_true_2 by exact Heq. rewrite last_cons.
    destruct (last _); [reflexivity|]. simpl.
    unfold hValues, hSet, Header_Values, Header_Set.
    now rewrite Heq, lookup_insert_eq.
  - rewrite bool_decide_eq_false_2 by exact Hne.
    destruct (last _); [reflexivity|]. now apply hValues_hSet_other.
Qed.

(** X14. After [WithHeaders], a header whose canonical key is that of some
    given entry has the single value of the last such entry, and every
    other header is as before. *)
Theorem X14_WithHeaders_overwrites (h : list (string * string)) (r : Request)
  (K : string) :
  hValues K (make_if_nil (headers (apply (WithHeaders h) r)))
  = match last (entries_for_header K h) with
    | Some kv => [snd kv]
    | None => hValues K (make_if_nil (headers r))
    end.
Proof. simpl. apply fold_hSet_last. Qed.

(** X15. In the headers of a folded builder every key is a canonical
    header key and has exactly one value. *)
Theorem X15_builder_headers_single_valued (m u : string)
  (os : list (option Option)) :
  single_valued (make_if_nil (headers (newRequest m u os))) /\
  (forall K,
     let h := make_if_nil (headers (newRequest m u os)) in
     hValues K h = [] \/ hValues K h = [hGet K h]).
Proof.
  pose proof (newRequest_single_valued m u os) as Hs.
  split; [exact Hs|]. intros K h. subst h.
  unfold hValues, hGet, Header_Values, Header_Get.
  destruct (_ !! CanonicalMIMEHeaderKey K) as [vs|] eqn:Hk; [|now left].
  destruct (Hs _ _ Hk) as [_ [v ->]]. now right.
Qed.

Lemma fold_Values_Set (l : list (string * string)) (k : string)
  (vs : list string) :
  NoDup (map fst l) ->
  (fold_left (fun acc kv => Values_Set (fst kv) (snd kv) acc) l ∅ !! k
   = Some vs <-> exists v, vs = [v] /\ (k, v) ∈ l).
Proof.
  induction l as [|[k' v'] l IH] using rev_ind; intros Hnd.
  { simpl. rewrite lookup_empty. split; [discriminate|].
    intros [v [_ Hin]]. inversion Hin. }
  rewrite fold_left_app. simpl. unfold Values_Set.
  rewrite map_app in Hnd. apply NoDup_app in Hnd as (Hl & Hk & _).
  destruct (decide (k' = k)) as [->|Hne].
  - rewrite lookup_insert_eq. split.
    + intros [= <-]. exists v'. split; [reflexivity|].
      apply elem_of_app. right. now left.
    + intros [v [-> Hin]]. apply elem_of_app in Hin as [Hin|Hin].
      * exfalso. apply (Hk k); [|now left].
        apply list_elem_of_fmap. now exists (k, v).
      * apply list_elem_of_singleton in Hin. congruence.
  - rewrite lookup_insert_ne by exact Hne. rewrite (IH Hl). split.
    + intros [v [-> Hin]]. exists v. split; [reflexivity|].
      apply elem_of_app. now left.
    + intros [v [-> Hin]]. exists v. split; [reflexivity|].
      apply elem_of_app in Hin as [Hin|Hin]; [exact Hin|].
      apply list_elem_of_singleton in Hin. congruence.
Qed.

Lemma fold_Values_Set_single (l : list (string * string)) (k : string)
  (vs : list string) :
  fold_left (fun acc kv => Values_Set (fst kv) (snd kv) acc) l ∅ !! k
  = Some vs -> exists v, vs = [v].
Proof.
  induction l as [|[k' v'] l IH] using rev_ind.
  { simpl. now rewrite lookup_empty. }
  rewrite fold_left_app. simpl. unfold Values_Set.
  destruct (decide (k' = k)) as [->|Hne].
  - rewrite lookup_insert_eq. intros [= <-]. eauto.
  - now rewrite lookup_insert_ne by exact Hne.
Qed.

(** When every key has one value, the encoding writes one pair per key. *)
Lemma single_valued_pairs_keys (g : string -> list string)
  (keys : list string) :
  (forall k, k ∈ keys -> exists v, g k = [v]) ->
  map fst (flat_map (fun k => map (fun x => (k, x)) (g k)) keys) = keys.
Proof.
  induction keys as [|k keys IH]; intros H; simpl; [reflexivity|].
  destruct (H k) as [v Hv]; [now left|]. rewrite Hv. simpl. f_equal.
  apply IH. intros k' Hk'. apply H. now right.
Qed.

(** X16. [WithForm] on a builder without error, given entries with
    distinct keys, sets the body to the text [k=v&k=v...] of the escaped
    keys and values of exactly the given entries, each written once, in
    the sorted order of their keys. *)
Theorem X16_WithForm_body (values : list (string * string)) (r : Request) :
  err r = None -> NoDup (map fst values) ->
  exists pairs : list (string * string),
    body (apply (WithForm values) r)
    = Some (strings_NewReader
              (String.concat "&"
                 (map (fun kv =>
                         url_QueryEscape (fst kv) +:+ "="
                         +:+ url_QueryEscape (snd kv))
                    pairs))) /\
    pairs ≡ₚ values /\
    StronglySorted string_le (map fst pairs).
Proof.
  intros He Hnd.
  set (form := fold_left (fun acc kv => Values_Set (fst kv) (snd kv) acc)
                 values ∅).
  exists (Values_pairs form).
  split; [simpl; now rewrite He|]. split; [|apply Values_pairs_sorted].
  apply NoDup_Permutation.
  - apply (NoDup_fmap_1 fst).
    unfold Values_pairs. rewrite single_valued_pairs_keys.
    + apply sorted_keys_NoDup.
    + intros k Hk. apply elem_of_sorted_keys in Hk as [vs Hvs].
      rewrite Hvs. simpl. eapply fold_Values_Set_single. exact Hvs.
  - apply (NoDup_fmap_1 fst). exact Hnd.
  - intros [k v]. rewrite elem_of_Values_pairs.
    destruct (form !! k) as [vs|] eqn:Hk; simpl.
    + apply (fold_Values_Set values k vs Hnd) in Hk as Hk'.
      destruct Hk' as [v0 [-> Hin]]. split.
      * intros Hv. apply list_elem_of_singleton in Hv. now subst.
      * intros Hin'. apply list_elem_of_singleton.
        assert (Hv : form !! k = Some [v]).
        { apply (fold_Values_Set values k [v] Hnd). eauto. }
        congruence.
    + split; [intros Hv; inversion Hv|].
      intros Hin. exfalso.
      assert (Hv : form !! k = Some [v]).
      { apply (fold_Values_Set values k [v] Hnd). eauto. }
      congruence.
Qed.

(** ** The accessors of the wrapper *)

(** X17. On a nil wrapper, or a wrapper without a raw response or without
    a body stream, [Bytes], [Text] and [JSON] all return [ErrResponseNil],
    with no bytes and an empty text, and leave the wrapper as it is. *)
Theorem X17_accessors_reject_absent_body (r : option Response) :
  body_stream r = None ->
  Bytes r = (([], Some (Sentinel ErrResponseNil)), r) /\
  Text r = (("", Some (Sentinel ErrResponseNil)), r) /\
  (forall v, JSON r v = (Some (Sentinel ErrResponseNil), r)).
Proof.
  intros H.
  assert (HB : Bytes r = (([], Some (Sentinel ErrResponseNil)), r)).
  { destruct r as [w|]; [|reflexivity]. unfold Bytes. simpl in H.
    destruct (Raw w) as [raw|]; [|reflexivity]. now rewrite H. }
  split; [exact HB|]. unfold Text, JSON. rewrite HB. split; reflexivity.
Qed.

(** X18. After a body read that failed, every accessor call on the wrapper,
    the first one included, returns the error of that read: [JSON] does not
    decode and never answers [ErrNoContent], even when no byte was read. *)
Theorem X18_read_failure_is_sticky (w : Response) (raw : HttpResponse)
  (rc : ReadCloser) (b : bytes) (e : exterr) (s' : Stream)
  (cs : list Call) :
  Raw w = Some raw -> hresp_Body raw = Some rc -> once w = false ->
  io_ReadAll (rc_stream rc) = ((b, Some e), s') ->
  Forall (fun o => outcome_err o = Some (External e))
    (fst (run cs (Some w))).
Proof.
  intros H1 H2 H3 Hread.
  destruct cs as [|c cs]; [constructor|]. simpl.
  rewrite (call_from_Bytes c _ _ _ _ (Bytes_first w raw rc H1 H2 H3)).
  pose proof (readBody_spec w raw rc) as Hw. simpl in Hw.
  rewrite Hw, Hread. simpl.
  erewrite run_done; [|reflexivity|reflexivity|reflexivity]. simpl.
  constructor; [now destruct c|].
  apply Forall_forall. intros o Hin.
  apply list_elem_of_In, in_map_iff in Hin as [c' [<- _]].
  now destruct c'.
Qed.

(** X19. The body of a response that [do] returns with a status error can
    still be read: [Bytes] on the returned wrapper, and on the wrapper held
    by the [StatusError], gives the bytes of the body. *)
Theorem X19_error_body_readable (m u : string) (os : list (option Option))
  (c : Client) (hr : HttpRequest) (resp : HttpResponse) (rc : ReadCloser)
  (b : bytes) (s' : Stream) :
  snd (do m u os) = [(c, hr)] -> client_Do c hr = inl resp ->
  hresp_Body resp = Some rc -> io_ReadAll (rc_stream rc) = ((b, None), s') ->
  fst (Bytes (fst (fst (do m u os)))) = (b, None) /\
  (forall code held,
     snd (fst (do m u os)) = Some (StatusError code held) ->
     code = hresp_StatusCode resp /\ fst (Bytes held) = (b, None)).
Proof.
  intros Htrace Hresp Hbody Hread.
  pose proof (do_reaches_transport m u os c hr Htrace) as H.
  rewrite Hresp in H.
  assert (HB : fst (Bytes (newResponse (Some resp))) = (b, None)).
  { unfold newResponse.
    erewrite Bytes_first; [|reflexivity|exact Hbody|reflexivity].
    rewrite readBody_spec. simpl. now rewrite Hread. }
  destruct ((hresp_StatusCode resp <? 200) || (hresp_StatusCode resp >=? 300));
    rewrite H; simpl fst; simpl snd.
  - split; [exact HB|]. now intros code held [= <- <-].
  - split; [exact HB|]. discriminate.
Qed.

(** ** Error categories *)

(** X20. An error matches at most one of the package's error values: the
    categories that callers test with [errors.Is] exclude one another.  A
    [StatusError] matches [ErrStatus], an error wrapped with [%w] matches
    the value it wraps and not the category of the error it describes. *)
Theorem X20_error_categories_exclusive :
  (forall e s1 s2,
     errors_Is e s1 = true -> errors_Is e s2 = true -> s1 = s2) /\
  (forall code held s,
     errors_Is (StatusError code held) s = bool_decide (s = ErrStatus)) /\
  (forall w inner s, errors_Is (Errorf w inner) s = bool_decide (s = w)).
Proof.
  split; [|split].
  - intros e s1 s2 H1 H2.
    destruct e; simpl in *;
      try discriminate;
      apply bool_decide_eq_true in H1; apply bool_decide_eq_true in H2;
      congruence.
  - intros code held s. simpl. apply bool_decide_ext. split; congruence.
  - intros w inner s. simpl. apply bool_decide_ext. split; congruence.
Qed.

(** ** The order in which [range] visits a map *)

(** A left fold whose steps commute on entries with distinct keys gives the
    same result on every ordering of entries with distinct keys. *)
Lemma fold_left_distinct_keys {A B K : Type} (f : B -> A -> B)
  (key : A -> K) :
  (forall b x y, key x <> key y -> f (f b x) y = f (f b y) x) ->
  forall l l' : list A,
    l ≡ₚ l' -> NoDup (map key l) ->
    forall b, fold_left f l b = fold_left f l' b.
Proof.
  intros Hcomm l l' Hperm.
  induction Hperm as [|x l l' Hperm IH|x y l|l1 l2 l3 H12 IH12 H23 IH23];
    intros Hnd b; simpl.
  - reflexivity.
  - apply IH. simpl in Hnd. now apply NoDup_cons in Hnd as [_ Hnd].
  - f_equal. apply Hcomm. simpl in Hnd.
    apply NoDup_cons in Hnd as [Hy _]. intros Heq. apply Hy.
    rewrite Heq. now left.
  - rewrite IH12 by exact Hnd. apply IH23.
    eapply NoDup_Permutation_proper; [|exact Hnd].
    symmetry. now apply fmap_Permutation.
Qed.

Lemma Values_Add_commute (acc : Values) (x y : string * string) :
  fst x <> fst y ->
  Values_Add (fst y) (snd y) (Values_Add (fst x) (snd x) acc)
  = Values_Add (fst x) (snd x) (Values_Add (fst y) (snd y) acc).
Proof.
  intros Hne. unfold Values_Add.
  rewrite !lookup_insert_ne by congruence.
  apply insert_insert_ne. congruence.
Qed.

(** X21. The options that walk a Go map do not depend on the order in which
    the runtime visits its entries: for entries with distinct keys, every
    ordering gives the same builder after [WithQuery] and after [WithForm],
    and, when the keys are still distinct once canonicalised, after
    [WithHeaders]. *)
Theorem X21_map_order_is_irrelevant (l l' : list (string * string))
  (r : Request) :
  l ≡ₚ l' -> NoDup (map fst l) ->
  apply (WithQuery l) r = apply (WithQuery l') r /\
  apply (WithForm l) r = apply (WithForm l') r /\
  (NoDup (map (fun kv => CanonicalMIMEHeaderKey (fst kv)) l) ->
   apply (WithHeaders l) r = apply (WithHeaders l') r).
Proof.
  intros Hperm Hnd. split; [|split].
  - simpl. do 2 f_equal.
    apply (fold_left_distinct_keys _ fst); try assumption.
    intros acc x y Hne. now apply Values_Add_commute.
  - simpl. destruct (err r); [reflexivity|]. do 5 f_equal.
    apply (fold_left_distinct_keys _ fst); try assumption.
    intros acc x y Hne. unfold Values_Set. now apply insert_insert_ne.
  - intros Hc. simpl. do 2 f_equal.
    apply (fold_left_distinct_keys _
             (fun kv => CanonicalMIMEHeaderKey (fst kv))); try assumption.
    intros acc x y Hne. unfold hSet, Header_Set. now apply insert_insert_ne.
Qed.

(** ** Nil options *)

Lemma fold_skips_nil (os : list (option Option)) (r : Request) :
  fold_left apply_opt os r
  = fold_left apply_opt (List.filter (fun o => bool_decide (o <> None)) os) r.
Proof.
  revert r. induction os as [|o os IH]; intros r; simpl; [reflexivity|].
  destruct o as [o|]; simpl; apply IH.
Qed.

(** X22. Nil options are skipped: the folded builder and the whole result
    of [do] are those of the option sequence without its nil elements. *)
Theorem X22_nil_options_are_skipped (m u : string)
  (os : list (option Option)) :
  let kept := List.filter (fun o => bool_decide (o <> None)) os in
  newRequest m u os = newRequest m u kept /\ do m u os = do m u kept.
Proof.
  intros kept.
  assert (H : newRequest m u os = newRequest m u kept).
  { apply fold_skips_nil. }
  split; [exact H|]. unfold do. now rewrite H.
Qed.

End Extras.

(** * The properties on concrete inputs *)

Import Demo.

(** The proxy URL does not parse, so the slot is set before the other
    options run (TestWithProxyError, TestWithJSONError). *)
Lemma C1_first_error_wins_witness :
  let e := External (mkExterr "missing protocol scheme" false false) in
  let before := [Some (WithProxy "://invalid")] in
  let later := [Some (WithJSON DChan); Some (WithHeader "X-Test" "1")] in
  err (newRequest "GET" "http://srv/x" before) = Some e /\
  err (newRequest "GET" "http://srv/x" (before ++ later)) = Some e /\
  do "GET" "http://srv/x" (before ++ later)
  = ((None, Some (Errorf ErrRequest e)), []) /\
  errors_Is (Errorf ErrRequest e) ErrRequest = true.
Proof.
  split; [reflexivity|].
  apply (proj2 (proj2 C1_first_error_wins)). reflexivity.
Defined.

(** TestBytesCachesBody, with a [Text] call in between. *)
Lemma C2_body_read_once_witness :
  let raw := mkHttpResponse 200 ∅ (bodyOf "hello") in
  let w := mkResponse (Some raw) 200 ∅ false [] None in
  let cs := [CallBytes; CallText; CallBytes] in
  (once w = false /\ cs <> []) /\
  fst (run cs (Some w))
  = [OutBytes (list_byte_of_string "hello") None; OutText "hello" None;
     OutBytes (list_byte_of_string "hello") None] /\
  body_stream (snd (run cs (Some w)))
  = Some (mkReadCloser (mkStream [] None true) [OpReadAll; OpClose]).
Proof.
  split; [split; [reflexivity|discriminate]|].
  exact (C2_body_read_once
           (mkResponse (Some (mkHttpResponse 200 ∅ (bodyOf "hello"))) 200 ∅
              false [] None)
           (mkHttpResponse 200 ∅ (bodyOf "hello"))
           (mkReadCloser (mkStream (list_byte_of_string "hello") None false) [])
           [CallBytes; CallText; CallBytes]
           eq_refl eq_refl eq_refl
           (fun H => eq_ind [CallBytes; CallText; CallBytes]
                       (fun l => match l with [] => False | _ => True end)
                       I [] H)).
Defined.

(** C3 as stated fails at status 299: the code 299 is outside [200,299),
    the transport returned the response, and [do] returns the wrapper with a
    nil error. *)
Lemma C3_counterexample :
  exists w : Response,
    do "GET" "http://srv/s299" []
    = ((Some w, None),
       [(mkClient 0 None None, mkReq "GET" "http://srv/s299")]) /\
    client_Do (mkClient 0 None None) (mkReq "GET" "http://srv/s299")
    = inl (mkHttpResponse 299 ∅ (bodyOf "odd")) /\
    StatusCode w = 299 /\ ~ (200 <= StatusCode w < 299).
Proof.
  eexists. split; [reflexivity|]. split; [reflexivity|].
  split; [reflexivity|]. simpl. lia.
Qed.

(** TestStatusError: a 400 comes back with its wrapper. *)
Lemma C3_status_error_outside_2xx_witness :
  let c := mkClient 0 None None in
  let hr := mkReq "GET" "http://srv/bad" in
  let resp := mkHttpResponse 400 ∅ (bodyOf "bad") in
  (snd (do "GET" "http://srv/bad" []) = [(c, hr)] /\
   client_Do c hr = inl resp) /\
  exists w : Response,
    Raw w = Some resp /\ StatusCode w = 400 /\
    fst (do "GET" "http://srv/bad" [])
    = (Some w, Some (StatusError 400 (Some w))) /\
    (forall e, snd (fst (do "GET" "http://srv/bad" [])) = Some e ->
       errors_Is e ErrStatus = true).
Proof.
  split; [split; reflexivity|].
  exact (C3_status_error_outside_2xx "GET" "http://srv/bad" []
           (mkClient 0 None None) (mkReq "GET" "http://srv/bad")
           (mkHttpResponse 400 ∅ (bodyOf "bad")) eq_refl eq_refl).
Defined.

(** C4 at a body whose read fails.  The three nil cases return
    [ErrResponseNil]; the failed read returns the bytes read so far and the
    reader's own error, which [errors.Is] does not match with
    [ErrResponse]. *)
Theorem C4_Bytes_read_error_not_wrapped :
  fst (Bytes None) = ([], Some (Sentinel ErrResponseNil)) /\
  fst (Bytes (Some (mkResponse None 0 ∅ false [] None)))
  = ([], Some (Sentinel ErrResponseNil)) /\
  fst (Bytes (newResponse (Some (mkHttpResponse 200 ∅ None))))
  = ([], Some (Sentinel ErrResponseNil)) /\
  fst (Bytes (newResponse (Some (mkHttpResponse 200 ∅ brokenBody))))
  = (list_byte_of_string "par", Some (External errUnexpectedEOF)) /\
  errors_Is (External errUnexpectedEOF) ErrResponse = false.
Proof.
  split; [reflexivity|].
  split; [now rewrite Bytes_nil_cases by (left; reflexivity)|].
  split.
  - simpl newResponse. rewrite Bytes_nil_cases; [reflexivity|].
    right. eexists. split; reflexivity.
  - eapply Bytes_read_failure; reflexivity.
Qed.

(** C5 at a body that is not JSON (TestJSONInvalidBody) and at an empty
    body (TestJSONEmptyBody).  The empty body gives [ErrNoContent]; the
    failed decode gives the decoder's own error, which [errors.Is] does not
    match with [ErrResponse]. *)
Theorem C5_JSON_decode_error_not_wrapped :
  snd (fst (do "GET" "http://srv/empty" [])) = None /\
  fst (JSON (fst (fst (do "GET" "http://srv/empty" []))) (DText ""))
  = Some (Sentinel ErrNoContent) /\
  snd (fst (do "GET" "http://srv/text" [])) = None /\
  fst (Bytes (fst (fst (do "GET" "http://srv/text" []))))
  = (list_byte_of_string "not json", None) /\
  exists e : exterr,
    fst (JSON (fst (fst (do "GET" "http://srv/text" []))) (DText ""))
    = Some (External e) /\
    errors_Is (External e) ErrResponse = false.
Proof.
  split; [reflexivity|].
  split; [eapply JSON_empty; reflexivity|].
  split; [reflexivity|]. split; [reflexivity|].
  eexists. eapply JSON_decode_failure; [reflexivity|discriminate|reflexivity].
Qed.

(** TestWithRedirectLimit: with cap 1 on the chain from [/a], the loop
    follows one redirect and returns the response of [/b]. *)
Lemma C6_redirect_cap_witness :
  let r := newRequest "GET" "http://srv/a" [Some (WithRedirect 1)] in
  let req := mkReq "GET" "http://srv/a" in
  (0 < 1 /\ redirectMax r = Some 1 /\ (Z.to_nat 1 < 5)%nat) /\
  exists res sent lastreq,
    follow serve next 5 (policy_of (buildClient r)) req [] = Some (res, sent)
    /\ last sent = Some lastreq /\ res = serve lastreq
    /\ (length sent <= Z.to_nat 1 + 1)%nat
    /\ ((length sent = Z.to_nat 1 + 1)%nat
        \/ redirect_of next lastreq res = None).
Proof.
  split; [split; [reflexivity|split; [reflexivity|]]|].
  - apply Nat.ltb_lt. reflexivity.
  - refine (proj2 (proj2 (proj2
              (C6_redirect_cap
                 (newRequest "GET" "http://srv/a" [Some (WithRedirect 1)]))))
              1 eq_refl eq_refl serve next 5%nat
              (mkReq "GET" "http://srv/a") _).
    apply Nat.ltb_lt. reflexivity.
Defined.

(** TestBuildURLWithExistingQuery. *)
Lemma C7_url_composition_witness :
  let base := "http://srv/x?a=1" in
  let u := mkURL "" "" "http://srv/x" "a=1" "" in
  (url_Parse base = inl u /\ RawQuery u = "a=1" /\
   forall raw, url_ParseQuery raw = ParseQuery raw) /\
  exists composed : URL,
    buildURL
      (newRequest "GET" base [Some (WithQuery [("a", "3"); ("b", "2")])])
    = inl composed /\
    RawQuery composed = "a=1&a=3&b=2".
Proof.
  split; [split; [reflexivity|split; [reflexivity|reflexivity]]|].
  exact (proj2 (proj2 (proj2 C7_url_composition)) "GET" "http://srv/x?a=1"
           (mkURL "" "" "http://srv/x" "a=1" "") eq_refl eq_refl
           (fun raw => eq_refl)).
Defined.

(** C7 as stated fails on a base whose query has a piece that [URL.Query]
    drops: the targets parse, and after [WithQuery] with [c=2] the pair
    [a=%zz] of the first base and the piece [a=1;b=2] of the second are not
    in the composed raw query. *)
Lemma C7_counterexample :
  (exists u composed : URL,
     url_Parse "http://srv/x?a=%zz&b=1" = inl u /\
     RawQuery u = "a=%zz&b=1" /\
     buildURL
       (newRequest "GET" "http://srv/x?a=%zz&b=1"
          [Some (WithQuery [("c", "2")])])
     = inl composed /\
     RawQuery composed = "b=1&c=2") /\
  (exists u composed : URL,
     url_Parse "http://srv/x?a=1;b=2" = inl u /\
     RawQuery u = "a=1;b=2" /\
     buildURL
       (newRequest "GET" "http://srv/x?a=1;b=2"
          [Some (WithQuery [("c", "2")])])
     = inl composed /\
     RawQuery composed = "c=2").
Proof.
  split; do 2 eexists; repeat split; reflexivity.
Qed.

(** C8 as stated fails twice.  A Content-Type header that is present with
    an empty value is replaced by [WithJSON]; and [WithForm] after an
    option that set the error slot leaves the caller's Content-Type. *)
Lemma C8_counterexample :
  (let before :=
     newRequest "POST" "http://srv/x" [Some (WithHeader "Content-Type" "")] in
   make_if_nil (headers before) !! "Content-Type" = Some [""] /\
   err before = None /\
   make_if_nil (headers (apply (WithJSON (DText "alice")) before))
     !! "Content-Type" = Some ["application/json"]) /\
  (let before :=
     newRequest "POST" "http://srv/x"
       [Some (WithHeader "Content-Type" "text/plain");
        Some (WithProxy "://invalid")] in
   make_if_nil (headers before) !! "Content-Type" = Some ["text/plain"] /\
   make_if_nil (headers (apply (WithForm [("name", "bob")]) before))
     !! "Content-Type" = Some ["text/plain"]).
Proof. repeat split; reflexivity. Qed.

(** TestWithJSONRespectsExistingContentType and
    TestWithFormOverridesContentType. *)
Lemma C8_content_type_witness :
  let r :=
    newRequest "POST" "http://srv/x"
      [Some (WithHeader "Content-Type" "text/plain")] in
  (hGet "Content-Type" (make_if_nil (headers r)) <> "" /\ err r = None) /\
  make_if_nil (headers (apply (WithJSON (DText "alice")) r))
  = make_if_nil (headers r) /\
  hValues "Content-Type"
    (make_if_nil (headers (apply (WithForm [("name", "bob")]) r)))
  = ["application/x-www-form-urlencoded"].
Proof.
  assert (Hct : hGet "Content-Type"
                  (make_if_nil
                     (headers
                        (newRequest "POST" "http://srv/x"
                           [Some (WithHeader "Content-Type" "text/plain")])))
                <> "") by discriminate.
  split; [split; [exact Hct|reflexivity]|].
  split.
  - exact (proj1
             (C8_content_type
                (newRequest "POST" "http://srv/x"
                   [Some (WithHeader "Content-Type" "text/plain")]))
             (DText "alice") Hct).
  - exact (proj1 (proj2 (proj2
             (C8_content_type
                (newRequest "POST" "http://srv/x"
                   [Some (WithHeader "Content-Type" "text/plain")]))))
             [("name", "bob")] eq_refl).
Defined.


(** ** The package's tests on the demo server *)

(** TestWithHeaderOverwrite and TestSessionOverrideOptions: the request sent
    carries the later value. *)
Example header_overwrite_sent :
  map (fun call => hValues "X-Key" (hreq_Header (snd call)))
    (snd (do "GET" "http://srv/x"
            [Some (WithHeader "X-Key" "first");
             Some (WithHeader "x-key" "second")]))
  = [["second"]] /\
  map (fun call => hValues "X-Key" (hreq_Header (snd call)))
    (snd (Session_do (NewSession [Some (WithHeader "X-Key" "default")])
            "GET" "http://srv/x" [Some (WithHeader "X-Key" "override")]))
  = [["override"]].
Proof. split; reflexivity. Qed.

(** TestWithRedirect, TestWithRedirectLimit, TestWithRedirectAllow. *)
Example redirect_tests :
  (exists w, fst (do "GET" "http://srv/a" [Some (WithRedirect 0)])
             = (Some w, Some (StatusError 302 (Some w))) /\
             Headers w = location "http://srv/b") /\
  (exists w, fst (do "GET" "http://srv/a" [Some (WithRedirect 1)])
             = (Some w, Some (StatusError 302 (Some w))) /\
             Headers w = location "http://srv/c") /\
  (exists w, fst (do "GET" "http://srv/redirect" [Some (WithRedirect 1)])
             = (Some w, None) /\ StatusCode w = 200).
Proof. repeat split; eexists; split; reflexivity. Qed.

(** TestBuildURLWithExistingQuery: the URL text sent. *)
Example query_sent :
  map (fun call => hreq_URL (snd call))
    (snd (do "GET" "http://srv/x?a=1"
            [Some (WithQuery [("a", "3"); ("b", "2")])]))
  = ["http://srv/x?a=1&a=3&b=2"].
Proof. reflexivity. Qed.

(** TestGzipAutoDecompress expects the text [hello gzip]; the package
    returns the bytes of the transport in both runs. *)
Example gzip_option_same_bytes :
  run [CallBytes]
    (fst (fst (do "GET" "http://srv/x"
                 [Some (WithHeader "Accept-Encoding" "gzip");
                  Some WithDecompressGzip])))
  = run [CallBytes]
      (fst (fst (do "GET" "http://srv/x"
                   [Some (WithHeader "Accept-Encoding" "gzip")]))).
Proof. reflexivity. Qed.

(** ** The further properties on concrete inputs *)

(** TestNetworkError: nothing listens at the address. *)
Lemma X1_transport_error_classified_witness :
  let c := mkClient 0 None None in
  let hr := mkReq "GET" "http://down" in
  let e := mkExterr "connection refused" false false in
  (snd (do "GET" "http://down" []) = [(c, hr)] /\ client_Do c hr = inr e) /\
  exists er : error,
    fst (do "GET" "http://down" []) = (None, Some er) /\
    errors_Is er ErrTimeout = false /\
    errors_Is er ErrNetwork = true /\
    (forall s, s <> ErrTimeout -> s <> ErrNetwork -> errors_Is er s = false).
Proof.
  split; [split; reflexivity|].
  exact (X1_transport_error_classified "GET" "http://down" []
           (mkClient 0 None None) (mkReq "GET" "http://down")
           (mkExterr "connection refused" false false) eq_refl eq_refl).
Defined.

(** TestInvalidURL. *)
Lemma X2_malformed_target_witness :
  url_Parse "://invalid" = inr (mkExterr "missing protocol scheme" false false)
  /\
  exists er : error,
    do "GET" "://invalid" [Some (WithHeader "X-Test" "1")]
    = ((None, Some er), []) /\
    errors_Is er ErrRequest = true.
Proof.
  split; [reflexivity|].
  exact (X2_malformed_target "GET" "://invalid"
           [Some (WithHeader "X-Test" "1")]
           (mkExterr "missing protocol scheme" false false) eq_refl).
Defined.

(** TestGetWithQueryAndHeader. *)
Lemma X5_sent_request_reflects_builder_witness :
  let os := [Some (WithQuery [("q", "x")]); Some (WithHeader "X-Test" "1")] in
  let c := mkClient 0 None None in
  let hr :=
    mkHttpRequest "GET" "http://srv/x?q=x" {[ "X-Test" := ["1"] ]} None in
  snd (do "GET" "http://srv/x" os) = [(c, hr)] /\
  hreq_Method hr = "GET" /\
  hreq_Header hr = make_if_nil (headers (newRequest "GET" "http://srv/x" os)).
Proof.
  assert (H : snd (do "GET" "http://srv/x"
                     [Some (WithQuery [("q", "x")]);
                      Some (WithHeader "X-Test" "1")])
              = [(mkClient 0 None None,
                  mkHttpRequest "GET" "http://srv/x?q=x"
                    {[ "X-Test" := ["1"] ]} None)]) by reflexivity.
  split; [exact H|].
  pose proof (X5_sent_request_reflects_builder _ _ _ _ _ H)
    as (_ & _ & Hm & _ & _ & Hh & _).
  split; [exact Hm|]. apply Hh. reflexivity.
Defined.

(** TestPut: the request handed to the transport. *)
Lemma X6_verbs_request_method_witness :
  let call := (mkClient 0 None None, mkReq "PUT" "http://srv/x") in
  call ∈ snd (Put "http://srv/x" []) /\ hreq_Method (snd call) = "PUT".
Proof.
  assert (H : (mkClient 0 None None, mkReq "PUT" "http://srv/x")
              ∈ snd (Put "http://srv/x" [])).
  { apply list_elem_of_singleton. reflexivity. }
  split; [exact H|].
  exact (proj1 (proj2 (proj2
           (X6_verbs_request_method (NewSession []) "http://srv/x" []
              (mkClient 0 None None, mkReq "PUT" "http://srv/x")))) H).
Defined.

(** TestWithJSONError, with the failing option between two others. *)
Lemma X7_failing_option_anywhere_witness :
  option_fails (WithJSON DChan) /\
  exists er : error,
    do "POST" "http://srv/x"
      ([Some (WithHeader "X-Test" "1")] ++ [Some (WithJSON DChan)]
       ++ [Some (WithTimeout 5)])
    = ((None, Some er), []) /\
    errors_Is er ErrRequest = true.
Proof.
  assert (H : option_fails (WithJSON DChan)).
  { exists (mkExterr "json: unsupported type: chan int" false false).
    reflexivity. }
  split; [exact H|].
  exact (X7_failing_option_anywhere "POST" "http://srv/x"
           [Some (WithHeader "X-Test" "1")] [Some (WithTimeout 5)]
           (WithJSON DChan) H).
Defined.

Lemma X8_last_timeout_wins_witness :
  let later := [Some (WithHeader "X-Test" "1")] in
  Forall leaves_timeout later /\
  Timeout
    (buildClient
       (newRequest "GET" "http://srv/x"
          ([Some (WithTimeout 50)] ++ [Some (WithTimeout (-3))] ++ later)))
  = Z.max 0 (-3).
Proof.
  assert (H : Forall leaves_timeout [Some (WithHeader "X-Test" "1")]).
  { repeat constructor. }
  split; [exact H|].
  exact (proj1 (X8_last_timeout_wins "GET" "http://srv/x")
           [Some (WithTimeout 50)] [Some (WithHeader "X-Test" "1")] (-3) H).
Defined.

Lemma X9_last_redirect_wins_witness :
  let later := [Some (WithTimeout 5)] in
  (Forall leaves_redirect later /\ -1 < 0) /\
  CheckRedirect
    (buildClient
       (newRequest "GET" "http://srv/a"
          ([Some (WithRedirect 3)] ++ [Some (WithRedirect (-1))] ++ later)))
  = Some (checkRedirect (-1)) /\
  follow serve next 1 (checkRedirect (-1)) (mkReq "GET" "http://srv/a") []
  = Some (serve (mkReq "GET" "http://srv/a"), [mkReq "GET" "http://srv/a"]).
Proof.
  assert (H : Forall leaves_redirect [Some (WithTimeout 5)]).
  { repeat constructor. }
  split; [split; [exact H|reflexivity]|]. split.
  - exact (proj1 (X9_last_redirect_wins "GET" "http://srv/a")
             [Some (WithRedirect 3)] [Some (WithTimeout 5)] (-1) H).
  - exact (proj2 (proj2 (X9_last_redirect_wins "GET" "http://srv/a"))
             (-1) serve next 0%nat (mkReq "GET" "http://srv/a") eq_refl).
Defined.

(** TestWithProxy: the client routes through the proxy. *)
Lemma X10_proxy_transport_witness :
  let r := zeroRequest "GET" "http://srv/x" in
  let parsed := mkURL "" "" "http://proxy:8080" "" "" in
  (err r = None /\ url_Parse "http://proxy:8080" = inl parsed /\
   Forall leaves_proxy [Some (WithTimeout 5)]) /\
  cl_Transport
    (buildClient
       (fold_left apply_opt [Some (WithTimeout 5)]
          (apply (WithProxy "http://proxy:8080") r)))
  = Some (mkTransport true (Some parsed)).
Proof.
  assert (H : Forall leaves_proxy [Some (WithTimeout 5)]).
  { repeat constructor. }
  split; [split; [reflexivity|split; [reflexivity|exact H]]|].
  exact (proj1 X10_proxy_transport (zeroRequest "GET" "http://srv/x")
           "http://proxy:8080" (mkURL "" "" "http://proxy:8080" "" "")
           [Some (WithTimeout 5)] eq_refl eq_refl H).
Defined.

(** TestWithCookies, with two cookies. *)
Lemma X12_cookies_on_one_line_witness :
  let os :=
    [Some (WithCookies [mkCookie "session" "abc123"]);
     Some (WithCookies [mkCookie "lang" "en"])] in
  let c := mkClient 0 None None in
  let hr :=
    mkHttpRequest "GET" "http://srv/x"
      {[ "Cookie" := ["session=abc123; lang=en"] ]} None in
  (snd (do "GET" "http://srv/x" os) = [(c, hr)] /\
   cookies (newRequest "GET" "http://srv/x" os) <> []) /\
  hValues "Cookie" (hreq_Header hr) = ["session=abc123; lang=en"].
Proof.
  assert (H : snd (do "GET" "http://srv/x"
                     [Some (WithCookies [mkCookie "session" "abc123"]);
                      Some (WithCookies [mkCookie "lang" "en"])])
              = [(mkClient 0 None None,
                  mkHttpRequest "GET" "http://srv/x"
                    {[ "Cookie" := ["session=abc123; lang=en"] ]} None)])
    by reflexivity.
  assert (Hcs : cookies
                  (newRequest "GET" "http://srv/x"
                     [Some (WithCookies [mkCookie "session" "abc123"]);
                      Some (WithCookies [mkCookie "lang" "en"])]) <> [])
    by discriminate.
  split; [split; [exact H|exact Hcs]|].
  refine (X12_cookies_on_one_line _ _ _ _ _ H Hcs _).
  repeat constructor; discriminate.
Defined.

(** TestWithForm, with a value that needs escaping. *)
Lemma X16_WithForm_body_witness :
  let values := [("name", "bob k"); ("age", "7")] in
  let r := zeroRequest "POST" "http://srv/x" in
  (err r = None /\ NoDup (map fst values)) /\
  exists pairs : list (string * string),
    body (apply (WithForm values) r)
    = Some (strings_NewReader
              (String.concat "&"
                 (map (fun kv =>
                         url_QueryEscape (fst kv) +:+ "="
                         +:+ url_QueryEscape (snd kv))
                    pairs))) /\
    pairs ≡ₚ values /\
    StronglySorted string_le (map fst pairs).
Proof.
  assert (H : NoDup (map fst [("name", "bob k"); ("age", "7")])).
  { apply (bool_decide_unpack _). exact I. }
  split; [split; [reflexivity|exact H]|].
  exact (X16_WithForm_body [("name", "bob k"); ("age", "7")]
           (zeroRequest "POST" "http://srv/x") eq_refl H).
Defined.

(** The body text of that form. *)
Example WithForm_body_text :
  body (apply (WithForm [("name", "bob k"); ("age", "7")])
          (zeroRequest "POST" "http://srv/x"))
  = Some (strings_NewReader "age=7&name=bob+k").
Proof. reflexivity. Qed.

(** TestBytesNilResponse and TestTextNilResponse. *)
Lemma X17_accessors_reject_absent_body_witness :
  body_stream None = None /\
  Bytes None = (([], Some (Sentinel ErrResponseNil)), None) /\
  Text None = (("", Some (Sentinel ErrResponseNil)), None) /\
  (forall v, JSON None v = (Some (Sentinel ErrResponseNil), None)).
Proof.
  split; [reflexivity|].
  exact (X17_accessors_reject_absent_body None eq_refl).
Defined.

(** A body whose read fails after three bytes. *)
Lemma X18_read_failure_is_sticky_witness :
  let raw := mkHttpResponse 200 ∅ brokenBody in
  let w := mkResponse (Some raw) 200 ∅ false [] None in
  once w = false /\
  Forall (fun o => outcome_err o = Some (External errUnexpectedEOF))
    (fst (run [CallJSON (DText ""); CallBytes; CallText] (Some w))).
Proof.
  split; [reflexivity|].
  exact (X18_read_failure_is_sticky
           (mkResponse (Some (mkHttpResponse 200 ∅ brokenBody)) 200 ∅ false
              [] None)
           (mkHttpResponse 200 ∅ brokenBody)
           (mkReadCloser
              (mkStream (list_byte_of_string "par") (Some errUnexpectedEOF)
                 false) [])
           (list_byte_of_string "par") errUnexpectedEOF
           (mkStream [] (Some errUnexpectedEOF) false)
           [CallJSON (DText ""); CallBytes; CallText]
           eq_refl eq_refl eq_refl eq_refl).
Defined.

(** TestStatusError: the body of the 400 response. *)
Lemma X19_error_body_readable_witness :
  let c := mkClient 0 None None in
  let hr := mkReq "GET" "http://srv/bad" in
  (snd (do "GET" "http://srv/bad" []) = [(c, hr)] /\
   client_Do c hr = inl (mkHttpResponse 400 ∅ (bodyOf "bad"))) /\
  fst (Bytes (fst (fst (do "GET" "http://srv/bad" []))))
  = (list_byte_of_string "bad", None) /\
  (forall code held,
     snd (fst (do "GET" "http://srv/bad" []))
     = Some (StatusError code held) ->
     code = 400 /\ fst (Bytes held) = (list_byte_of_string "bad", None)).
Proof.
  split; [split; reflexivity|].
  exact (X19_error_body_readable "GET" "http://srv/bad" []
           (mkClient 0 None None) (mkReq "GET" "http://srv/bad")
           (mkHttpResponse 400 ∅ (bodyOf "bad"))
           (mkReadCloser (mkStream (list_byte_of_string "bad") None false) [])
           (list_byte_of_string "bad") (mkStream [] None false)
           eq_refl eq_refl eq_refl eq_refl).
Defined.

Lemma X20_error_categories_exclusive_witness :
  let e := Errorf ErrRequest (StatusError 404 None) in
  (errors_Is e ErrRequest = true /\ errors_Is e ErrStatus = false) /\
  (forall s, errors_Is e s = true -> s = ErrRequest).
Proof.
  split; [split; reflexivity|].
  intros s Hs.
  exact (proj1 X20_error_categories_exclusive
           (Errorf ErrRequest (StatusError 404 None)) s ErrRequest Hs
           eq_refl).
Defined.

(** The two orders in which a map of two headers can be visited. *)
Lemma X21_map_order_is_irrelevant_witness :
  let l := [("X-Custom", "value"); ("X-Another", "test")] in
  let l' := [("X-Another", "test"); ("X-Custom", "value")] in
  let r := zeroRequest "GET" "http://srv/x" in
  (l ≡ₚ l' /\ NoDup (map fst l) /\
   NoDup (map (fun kv => CanonicalMIMEHeaderKey (fst kv)) l)) /\
  apply (WithQuery l) r = apply (WithQuery l') r /\
  apply (WithForm l) r = apply (WithForm l') r /\
  apply (WithHeaders l) r = apply (WithHeaders l') r.
Proof.
  assert (Hp : [("X-Custom", "value"); ("X-Another", "test")]
               ≡ₚ [("X-Another", "test"); ("X-Custom", "value")]).
  { apply perm_swap. }
  assert (Hn : NoDup (map fst [("X-Custom", "value"); ("X-Another", "test")])).
  { apply (bool_decide_unpack _). exact I. }
  assert (Hc : NoDup (map (fun kv => CanonicalMIMEHeaderKey (fst kv))
                        [("X-Custom", "value"); ("X-Another", "test")])).
  { apply (bool_decide_unpack _). exact I. }
  split; [split; [exact Hp|split; [exact Hn|exact Hc]]|].
  destruct (X21_map_order_is_irrelevant _ _
              (zeroRequest "GET" "http://srv/x") Hp Hn) as (Hq & Hf & Hh).
  split; [exact Hq|]. split; [exact Hf|]. exact (Hh Hc).
Defined.

(** Two keys of one map with the same canonical form: the header that
    [WithHeaders] leaves depends on which the runtime visits last. *)
Example WithHeaders_collision_depends_on_order :
  let r := zeroRequest "GET" "http://srv/x" in
  hValues "X-Key"
    (make_if_nil (headers (apply (WithHeaders [("x-key", "a"); ("X-Key", "b")]) r)))
  = ["b"] /\
  hValues "X-Key"
    (make_if_nil (headers (apply (WithHeaders [("X-Key", "b"); ("x-key", "a")]) r)))
  = ["a"].
Proof. split; reflexivity. Qed.
